(** * RiverSwim: a shallow embedding of [riverswim/riverswim.py]

    The class [RiverSwimEnv] is modelled with explicit state passing: a
    method takes the environment and returns the environment it leaves
    behind together with its result, and an exception is a value of [exn].

    Python floats are IEEE binary64 values and the cells of the transition
    table are binary32 values ([dtype=np.float32]); both are [spec_float]
    values of the Standard Library, with the operations instantiated at the
    precision of each format.

    The random generator is library code.  A generator is identified by its
    seed and the number of draws made; the two sampling routines are
    parameters of the embedding, and what is assumed of them is stated where
    it is used ([sampler_in_support], [sampler_in_list]).  The checks the
    libraries make on their arguments are part of the embedding: a negative
    seed, a row that is not a distribution and a number of states that is
    not positive are refused as the libraries refuse them. *)

From Stdlib Require Import ZArith Lia.
From Stdlib Require Import Floats.SpecFloat.
From stdpp Require Import base option list gmap strings.

Local Open Scope Z_scope.

(** ** Floating point numbers *)

Module Float.

Abbreviation float := spec_float (only parsing).

Definition prec64 : Z := 53.
Definition emax64 : Z := 1024.
Definition prec32 : Z := 24.
Definition emax32 : Z := 128.

(** Python [float] arithmetic (binary64, round to nearest even). *)
Definition f64_of_Z (z : Z) : float := binary_normalize prec64 emax64 z 0 false.
Definition f64_add (x y : float) : float := SFadd prec64 emax64 x y.
Definition f64_sub (x y : float) : float := SFsub prec64 emax64 x y.
Definition f64_div (x y : float) : float := SFdiv prec64 emax64 x y.
Definition f64_leb (x y : float) : bool := SFleb x y.

(** The double written [a/b] as a decimal literal with denominator a power
    of ten (0.3 is [f64_ratio 3 10]): the binary64 value nearest to the
    quotient. *)
Definition f64_ratio (a b : Z) : float := f64_div (f64_of_Z a) (f64_of_Z b).

(** Storing a Python float into a [np.float32] cell rounds it to binary32. *)
Definition f32_of_f64 (x : float) : float :=
  match x with
  | S754_finite s m e => binary_round prec32 emax32 s m e
  | _ => x
  end.

Definition f32_add (x y : float) : float := SFadd prec32 emax32 x y.
Definition f32_eqb (x y : float) : bool := SFeqb x y.

Definition zero : float := S754_zero false.
Definition one64 : float := f64_of_Z 1.
Definition one32 : float := f32_of_f64 one64.

Definition is_zero (x : float) : bool :=
  match x with S754_zero _ => true | _ => false end.

(** The cell can stand in a distribution: it is a number and it is not
    below zero. *)
Definition is_probability (x : float) : bool :=
  match x with
  | S754_zero _ | S754_finite false _ _ => true
  | _ => false
  end.

(** The cell is a number above zero. *)
Definition is_positive (x : float) : bool :=
  match x with
  | S754_finite false _ _ => true
  | _ => false
  end.

End Float.

Import Float.

(** ** Exceptions and results *)

Inductive exn : Type :=
| ValueError      (* numpy: a negative dimension, a row that is no distribution *)
| InvalidAction   (* ValueError("Invalid action. Must be 0 or 1.") *)
| AssertionError  (* a failed [assert] *)
| IndexError      (* an index outside the array *)
| Error.          (* gymnasium.error.Error: a seed below zero *)

Definition result (A : Type) : Type := exn + A.

Definition ok {A} (x : A) : result A := inr x.
Definition raise {A} (e : exn) : result A := inl e.

Definition rbind {A B} (m : result A) (k : A -> result B) : result B :=
  match m with
  | inl e => inl e
  | inr x => k x
  end.

Notation "x <~ m ;; k" := (rbind m (fun x => k))
  (at level 100, m at next level, right associativity).

(** ** Arrays of shape (state, action, next state) *)

Abbreviation ndarray := (list (list (list spec_float))) (only parsing).

(** [np.zeros(shape=(n, a, m))]. *)
Definition zeros (n a m : Z) : result ndarray :=
  if (n <? 0) || (a <? 0) || (m <? 0) then raise ValueError
  else ok (replicate (Z.to_nat n) (replicate (Z.to_nat a) (replicate (Z.to_nat m) zero))).

(** An index into an axis of length [len]: a negative index counts from the
    end, anything outside [-len, len) is an error. *)
Definition norm_index (len : nat) (i : Z) : result nat :=
  if (0 <=? i) && (i <? Z.of_nat len) then ok (Z.to_nat i)
  else if (- Z.of_nat len <=? i) && (i <? 0) then ok (Z.to_nat (i + Z.of_nat len))
  else raise IndexError.

Definition lookup_or_raise {A} (l : list A) (i : nat) : result A :=
  match l !! i with
  | Some x => ok x
  | None => raise IndexError
  end.

(** [T[i, a, j] = v]. *)
Definition setitem (T : ndarray) (i a j : Z) (v : spec_float) : result ndarray :=
  i' <~ norm_index (length T) i ;;
  plane <~ lookup_or_raise T i' ;;
  a' <~ norm_index (length plane) a ;;
  row <~ lookup_or_raise plane a' ;;
  j' <~ norm_index (length row) j ;;
  ok (<[i' := <[a' := <[j' := v]> row]> plane]> T).

(** [T[i, a, :]]. *)
Definition getrow (T : ndarray) (i a : Z) : result (list spec_float) :=
  i' <~ norm_index (length T) i ;;
  plane <~ lookup_or_raise T i' ;;
  a' <~ norm_index (length plane) a ;;
  lookup_or_raise plane a'.

(** *** Sums of rows

    numpy adds the binary32 cells of a row pairwise.  Fewer than eight cells
    are added one by one.  Up to 128 cells are added as eight running sums
    over the leading blocks of eight cells, the eight sums are combined in
    pairs and the cells left over are added one by one.  A longer row is cut
    in two, the first part a multiple of eight cells long, and the sums of
    the two parts are added. *)

Definition neg_zero : spec_float := S754_zero true.

Fixpoint add_blocks (r : list spec_float) (l : list spec_float) : list spec_float :=
  match l with
  | a0 :: a1 :: a2 :: a3 :: a4 :: a5 :: a6 :: a7 :: rest =>
      add_blocks (zip_with f32_add r [a0; a1; a2; a3; a4; a5; a6; a7]) rest
  | _ => r
  end.

Definition combine8 (r : list spec_float) : spec_float :=
  match r with
  | [r0; r1; r2; r3; r4; r5; r6; r7] =>
      f32_add (f32_add (f32_add r0 r1) (f32_add r2 r3))
              (f32_add (f32_add r4 r5) (f32_add r6 r7))
  | _ => zero
  end.

Definition sum_block (l : list spec_float) : spec_float :=
  let whole := (length l - length l mod 8)%nat in
  foldl f32_add
    (combine8 (add_blocks (take 8 l) (drop 8 (take whole l))))
    (drop whole l).

(** [fuel] bounds the depth of the cuts; the length of the row is enough. *)
Fixpoint pairwise_sum (fuel : nat) (l : list spec_float) : spec_float :=
  let n := length l in
  if Nat.ltb n 8 then foldl f32_add neg_zero l
  else if Nat.leb n 128 then sum_block l
  else
    match fuel with
    | O => sum_block l
    | S fuel =>
        let n2 := (n / 2 - (n / 2) mod 8)%nat in
        f32_add (pairwise_sum fuel (take n2 l)) (pairwise_sum fuel (drop n2 l))
    end.

(** The reduction starts from the identity of the addition. *)
Definition row_sum (row : list spec_float) : spec_float :=
  f32_add zero (pairwise_sum (length row) row).

(** [T[:, a, :].sum(axis=-1)]: one sum per state. *)
Definition sum_axis (T : ndarray) (a : Z) : result (list spec_float) :=
  (fix go (planes : ndarray) : result (list spec_float) :=
     match planes with
     | [] => ok []
     | plane :: rest =>
         a' <~ norm_index (length plane) a ;;
         row <~ lookup_or_raise plane a' ;;
         sums <~ go rest ;;
         ok (row_sum row :: sums)
     end) T.

(** [all(v == 1.0)]. *)
Definition all_eq_one (v : list spec_float) : bool :=
  forallb (fun x => f32_eqb x one32) v.

(** ** The environment *)

(** The random source: a generator is identified by the entropy it was
    seeded with and by the number of draws made since. *)
Record Generator : Type := mkGenerator {
  entropy : Z;
  drawn : nat
}.

(** [seeding.np_random(seed)]: a new generator, seeded with [seed] when one
    is given and with entropy taken from the operating system otherwise.
    The library refuses a seed below zero. *)
Definition np_random_of_seed (seed : option Z) (os_entropy : Z) : result Generator :=
  match seed with
  | Some z =>
      if z <? 0 then raise Error else ok {| entropy := z; drawn := 0 |}
  | None => ok {| entropy := os_entropy; drawn := 0 |}
  end.

(** The auxiliary information returned by [reset] and [step]: a dictionary. *)
Abbreviation Info := (gmap string Z) (only parsing).

Section RiverSwim.

(** Rewards are [int | float] in the source and are only copied. *)
Context {Reward : Type}.

Record RiverSwimEnv : Type := mkEnv {
  n_states : Z;
  n_actions : Z;
  current_state : Z;
  p_right : spec_float;
  p_left : spec_float;
  p_stay : spec_float;
  max_reward : Reward;
  intermediate_reward : Reward;
  commom_reward : Reward;
  transition : ndarray;
  np_random : Generator
}.

Definition set_current_state (self : RiverSwimEnv) (s : Z) : RiverSwimEnv :=
  mkEnv (n_states self) (n_actions self) s (p_right self) (p_left self)
    (p_stay self) (max_reward self) (intermediate_reward self)
    (commom_reward self) (transition self) (np_random self).

Definition set_np_random (self : RiverSwimEnv) (g : Generator) : RiverSwimEnv :=
  mkEnv (n_states self) (n_actions self) (current_state self) (p_right self)
    (p_left self) (p_stay self) (max_reward self) (intermediate_reward self)
    (commom_reward self) (transition self) g.

Definition set_transition (self : RiverSwimEnv) (T : ndarray) : RiverSwimEnv :=
  mkEnv (n_states self) (n_actions self) (current_state self) (p_right self)
    (p_left self) (p_stay self) (max_reward self) (intermediate_reward self)
    (commom_reward self) T (np_random self).

(** *** [_get_transition] *)

(** One iteration of the loop over [range(self.n_states)]. *)
Definition transition_body (self : RiverSwimEnv) (T : ndarray) (i : Z) : result ndarray :=
  T <~ (if 0 <? i then
          T <~ setitem T i 0 (i - 1) one32 ;;
          T <~ setitem T i 1 (i - 1) (f32_of_f64 (p_left self)) ;;
          setitem T i 1 i (f32_of_f64 (p_stay self))
        else
          T <~ setitem T i 0 i one32 ;;
          setitem T i 1 i (f32_of_f64 (f64_add (p_stay self) (p_left self)))) ;;
  if i <? n_states self - 1 then
    setitem T i 1 (i + 1) (f32_of_f64 (p_right self))
  else
    T <~ setitem T i 1 i (f32_of_f64 (p_right self)) ;;
    setitem T i 1 (i - 1) (f32_of_f64 (f64_sub one64 (p_right self))).

Fixpoint transition_loop (self : RiverSwimEnv) (T : ndarray) (range : list Z) : result ndarray :=
  match range with
  | [] => ok T
  | i :: rest => T <~ transition_body self T i ;; transition_loop self T rest
  end.

(** The table as it stands when the loop ends, before the assertions. *)
Definition transition_table (self : RiverSwimEnv) : result ndarray :=
  T <~ zeros (n_states self) (n_actions self) (n_states self) ;;
  transition_loop self T (seqZ 0 (n_states self)).

Definition assert (b : bool) : result unit :=
  if b then ok tt else raise AssertionError.

Definition _get_transition (self : RiverSwimEnv) : result ndarray :=
  T <~ transition_table self ;;
  s0 <~ sum_axis T 0 ;;
  _ <~ assert (all_eq_one s0) ;;
  s1 <~ sum_axis T 1 ;;
  _ <~ assert (all_eq_one s1) ;;
  ok T.

(** *** [reset] *)

(** [os_entropy] is what the operating system would supply to a generator
    created without a seed.  The state after the call is returned on both
    paths: when the library refuses the seed nothing has been assigned. *)
Definition reset (self : RiverSwimEnv) (seed : option Z) (os_entropy : Z)
  : RiverSwimEnv * result (Z * Info) :=
  match np_random_of_seed seed os_entropy with
  | inl e => (self, raise e)
  | inr g =>
      let self := set_np_random self g in
      let self := set_current_state self 0 in
      let info : Info := ∅ in
      (self, ok (current_state self, info))
  end.

(** *** [step] *)

Record StepResult : Type := mkStep {
  next_state : Z;
  reward : Reward;
  terminal : bool;
  truncated : bool;
  info : Info
}.

(** The sampling routines of the generator are library code: [choice g n p]
    is [g.choice(n, p=p)] and [choice_list g l] is [g.choice(l)]; each
    returns the value drawn and the generator after the draw.  [choice]
    returns [None] when numpy refuses [p] with a [ValueError], which it does
    before it draws. *)
Variable choice : Generator -> Z -> list spec_float -> option (Z * Generator).
Variable choice_list : Generator -> list Z -> Z * Generator.

(** The state after the call is returned on both paths: an exception
    leaves [self] as the statements before it made it. *)
Definition step (self : RiverSwimEnv) (action : Z) : RiverSwimEnv * result StepResult :=
  if negb ((action =? 0) || (action =? 1)) then (self, raise InvalidAction)
  else
    match getrow (transition self) (current_state self) action with
    | inl e => (self, raise e)
    | inr probabilities =>
        match choice (np_random self) (n_states self) probabilities with
        | None => (self, raise ValueError)
        | Some (next_state, g) =>
            let self := set_np_random self g in
            let reward := commom_reward self in
            let reward :=
              if current_state self =? next_state then
                if (next_state =? 0) && (action =? 0) then intermediate_reward self
                else if (next_state =? n_states self - 1) && (action =? 1)
                     then max_reward self
                else reward
              else reward in
            let self := set_current_state self next_state in
            let terminal := false in
            let truncated := false in
            let info : Info := ∅ in
            (self, ok (mkStep next_state reward terminal truncated info))
        end
    end.

(** *** [__init__] *)

Record Config : Type := mkConfig {
  cfg_n_states : Z;
  cfg_max_reward : Reward;
  cfg_intermediate_reward : Reward;
  cfg_commom_reward : Reward;
  cfg_p_right : spec_float;
  cfg_p_left : spec_float
}.

(** The attributes set before the table is built. *)
Definition init_fields (cfg : Config) (s : Z) (g : Generator) : RiverSwimEnv :=
  {| n_states := cfg_n_states cfg;
     n_actions := 2;
     current_state := s;
     p_right := cfg_p_right cfg;
     p_left := cfg_p_left cfg;
     p_stay := f64_sub (f64_sub one64 (cfg_p_left cfg)) (cfg_p_right cfg);
     max_reward := cfg_max_reward cfg;
     intermediate_reward := cfg_intermediate_reward cfg;
     commom_reward := cfg_commom_reward cfg;
     transition := [];
     np_random := g |}.

(** The generator of a new environment is created on first use, without a
    seed.  Of the two [Discrete] space descriptors only the assertion of
    [Discrete(n_states)] that there is at least one state is kept;
    [Discrete(self.n_actions)] is [Discrete(2)].  The descriptors and
    [render_mode] play no part in [reset] and [step]. *)
Definition __init__ (cfg : Config) (os_entropy : Z) : result RiverSwimEnv :=
  g0 <~ np_random_of_seed None os_entropy ;;
  let '(s, g) := choice_list g0 [0; 1] in
  _ <~ assert (0 <? cfg_n_states cfg) ;;
  let self := init_fields cfg s g in
  T <~ _get_transition self ;;
  ok (set_transition self T).

(** A driver: [step] once per action, collecting what each call returns. *)
Fixpoint run (self : RiverSwimEnv) (actions : list Z)
  : RiverSwimEnv * list (result StepResult) :=
  match actions with
  | [] => (self, [])
  | a :: rest =>
      let '(self, r) := step self a in
      let '(self, rs) := run self rest in
      (self, r :: rs)
  end.

(** The environments a caller can hold: built by the constructor, then
    driven through [reset] and [step]. *)
Inductive reachable (cfg : Config) : RiverSwimEnv -> Prop :=
| reach_init os self :
    __init__ cfg os = ok self -> reachable cfg self
| reach_reset self seed os :
    reachable cfg self -> reachable cfg (fst (reset self seed os))
| reach_step self action self' r :
    reachable cfg self -> step self action = (self', r) -> reachable cfg self'.

End RiverSwim.

Arguments RiverSwimEnv : clear implicits.
Arguments StepResult : clear implicits.
Arguments Config : clear implicits.

(** The default arguments of the constructor. *)
Definition default_config : Config Z :=
  {| cfg_n_states := 6;
     cfg_max_reward := 10000;
     cfg_intermediate_reward := 5;
     cfg_commom_reward := 0;
     cfg_p_right := f64_ratio 3 10;
     cfg_p_left := f64_ratio 1 10 |}.

(** ** Concrete samplers

    One admissible behaviour of the generator: every draw advances it, a draw
    from a distribution returns the first state of non-zero probability, a
    row that is not a distribution is refused, and a draw from a list returns
    its head.  Used to build concrete environments. *)

Definition advance (g : Generator) : Generator :=
  {| entropy := entropy g; drawn := S (drawn g) |}.

Fixpoint first_support (p : list spec_float) : Z :=
  match p with
  | [] => 0
  | x :: rest => if is_zero x then 1 + first_support rest else 0
  end.

(** The row has [n] cells, none of them negative or not a number, and sums
    to one. *)
Definition is_distribution (n : Z) (p : list spec_float) : bool :=
  (Z.of_nat (length p) =? n) && forallb is_probability p
  && f32_eqb (row_sum p) one32.

Definition choice_first (g : Generator) (n : Z) (p : list spec_float)
  : option (Z * Generator) :=
  if is_distribution n p then Some (first_support p, advance g) else None.

Definition choice_head (g : Generator) (l : list Z) : Z * Generator :=
  (default 0 (head l), advance g).

(** The default environment as the constructor leaves it under these
    samplers, and the same environment after a reset with seed 7 and three
    steps. *)
Definition default_env : RiverSwimEnv Z :=
  match __init__ choice_head default_config 0 with
  | inr self => self
  | inl _ => init_fields default_config 0 (mkGenerator 0 0)
  end.

Definition used_env : RiverSwimEnv Z :=
  fst (run choice_first (fst (reset default_env (Some 7) 0)) [1; 1; 0]).

(** A configuration inside the documented bounds: 0.21 to the left, 0.26 to
    the right, hence 0.53 to stay. *)
Definition skewed_config : Config Z :=
  {| cfg_n_states := 6;
     cfg_max_reward := 10000;
     cfg_intermediate_reward := 5;
     cfg_commom_reward := 0;
     cfg_p_right := f64_ratio 26 100;
     cfg_p_left := f64_ratio 21 100 |}.

(** The three cells of an interior row of the skewed table under action 1. *)
Definition skewed_left : spec_float := f32_of_f64 (cfg_p_left skewed_config).
Definition skewed_stay : spec_float :=
  f32_of_f64 (f64_sub (f64_sub one64 (cfg_p_left skewed_config)) (cfg_p_right skewed_config)).
Definition skewed_right : spec_float := f32_of_f64 (cfg_p_right skewed_config).

(** The bounds of the builder's contract, evaluated as Python would. *)
Definition valid_config {Reward} (cfg : Config Reward) : bool :=
  (2 <=? cfg_n_states cfg)
  && f64_leb (f64_of_Z 0) (cfg_p_left cfg)
  && f64_leb (f64_of_Z 0) (cfg_p_right cfg)
  && f64_leb (f64_add (cfg_p_left cfg) (cfg_p_right cfg)) one64.

(** ** Specification vocabulary *)

(** The array has [n] planes of [na] rows of [m] cells. *)
Definition shape (n na m : Z) (T : list (list (list spec_float))) : Prop :=
  Z.of_nat (length T) = n /\
  Forall (fun plane => Z.of_nat (length plane) = na /\
                       Forall (fun row => Z.of_nat (length row) = m) plane) T.

(** [T[s][a][j]] for indices that are not negative. *)
Definition entry (T : list (list (list spec_float))) (s a j : Z) : option spec_float :=
  plane ← T !! Z.to_nat s; row ← plane !! Z.to_nat a; row !! Z.to_nat j.

(** The piecewise definition of the transition kernel, written from the
    construction rule of the specification: [kernel_spec n pl ps pr s a j]
    is the cell [T[s][a][j]], each probability stored as a binary32 value. *)
Definition kernel_spec (n : Z) (pl ps pr : spec_float) (s a j : Z) : spec_float :=
  if a =? 0 then
    if 0 <? s then (if j =? s - 1 then one32 else zero)
    else (if j =? 0 then one32 else zero)
  else if s =? n - 1 then
    if j =? s then f32_of_f64 pr
    else if j =? s - 1 then f32_of_f64 (f64_sub one64 pr)
    else zero
  else if s =? 0 then
    if j =? 0 then f32_of_f64 (f64_add ps pl)
    else if j =? 1 then f32_of_f64 pr
    else zero
  else
    if j =? s - 1 then f32_of_f64 pl
    else if j =? s then f32_of_f64 ps
    else if j =? s + 1 then f32_of_f64 pr
    else zero.


(** The reward rule, written from the specification: [s] is the state before
    the step, [a] the action and [s'] the state sampled. *)
Definition reward_spec {Reward} (self : RiverSwimEnv Reward) (s a s' : Z) : Reward :=
  if negb (s' =? s) then commom_reward self
  else if (s =? 0) && (a =? 0) then intermediate_reward self
  else if (s =? n_states self - 1) && (a =? 1) then max_reward self
  else commom_reward self.

(** The table of [self] is the one its own parameters produce, and it passed
    the assertions of the builder. *)
Definition constructed {Reward} (self : RiverSwimEnv Reward) : Prop :=
  n_actions self = 2 /\ _get_transition self = ok (transition self).

(** [self] is an instance of configuration [cfg] holding the table [T]: only
    the current state and the generator vary. *)
Definition instance_of {Reward} (cfg : Config Reward) (T : list (list (list spec_float)))
    (self : RiverSwimEnv Reward) : Prop :=
  self = set_transition (init_fields cfg (current_state self) (np_random self)) T.

(** What the sampler is relied on for.  It draws from every row that is a
    distribution: one cell per state, no cell negative or not a number, sum
    one.  And what it draws is a state of the row whose probability is above
    zero. *)
Definition sampler_in_support
    (choice : Generator -> Z -> list spec_float -> option (Z * Generator)) : Prop :=
  (forall g n p, is_distribution n p = true -> is_Some (choice g n p)) /\
  (forall g n p i g',
      choice g n p = Some (i, g') ->
      0 <= i < n /\
      exists x, p !! Z.to_nat i = Some x /\ is_positive x = true).

(** No cell of the table is negative or not a number. *)
Definition no_negative_cell (T : list (list (list spec_float))) : bool :=
  forallb (forallb (forallb is_probability)) T.

(** The seeds the library accepts: none, or an integer that is not negative. *)
Definition accepted_seed (seed : option Z) : bool :=
  match seed with
  | Some z => 0 <=? z
  | None => true
  end.

(** A draw from a list returns one of its elements. *)
Definition sampler_in_list (choice_list : Generator -> list Z -> Z * Generator) : Prop :=
  forall g l, l <> [] -> fst (choice_list g l) ∈ l.

(** The rows below [k] are final, the rows from [k] on are still zero. *)
Definition rows_done {Reward} (self : RiverSwimEnv Reward) (k : Z)
    (T : list (list (list spec_float))) : Prop :=
  forall s a j, 0 <= s < n_states self -> 0 <= a < 2 -> 0 <= j < n_states self ->
    entry T s a j =
      Some (if s <? k
            then kernel_spec (n_states self) (p_left self) (p_stay self) (p_right self) s a j
            else zero).

(** What a successful step looks like to the caller. *)
Definition never_ends {Reward} (r : result (StepResult Reward)) : Prop :=
  exists x, r = ok x /\ terminal x = false /\ truncated x = false /\ info x = ∅.

(** Every cell of the row is a zero. *)
Abbreviation all_zero := (Forall (fun x : spec_float => is_zero x = true)).

(** ** Further vocabulary *)

(** The test [step] makes on its argument. *)
Definition valid_action (a : Z) : bool := (a =? 0) || (a =? 1).

(** The result is the invalid-action error. *)
Definition rejected {A} (r : result A) : bool :=
  match r with
  | inl InvalidAction => true
  | _ => false
  end.

(** Another admissible behaviour of the generator: a draw from a list
    returns its last element. *)
Definition choice_last (g : Generator) (l : list Z) : Z * Generator :=
  (default 0 (last l), advance g).

(** The default environment when the first draw of the constructor is 1. *)
Definition drifted_env : RiverSwimEnv Z :=
  match __init__ choice_last default_config 0 with
  | inr self => self
  | inl _ => init_fields default_config 0 (mkGenerator 0 0)
  end.

(** A river of one state from which the swimmer is never carried right, and
    the environment the constructor builds for it when its first draw is 1. *)
Definition single_config : Config Z :=
  {| cfg_n_states := 1;
     cfg_max_reward := 10000;
     cfg_intermediate_reward := 5;
     cfg_commom_reward := 0;
     cfg_p_right := f64_of_Z 0;
     cfg_p_left := f64_ratio 1 10 |}.

Definition single_env : RiverSwimEnv Z :=
  match __init__ choice_last single_config 0 with
  | inr self => self
  | inl _ => init_fields single_config 0 (mkGenerator 0 0)
  end.

(** ** [render] *)

(** One iteration of the loop of [render]: the box of state [i], then a
    separator unless the state is the last one. *)
Definition render_body {Reward} (self : RiverSwimEnv Reward)
    (representation : string) (i : Z) : string :=
  let representation :=
    if i =? current_state self then representation +:+ "[X]"
    else representation +:+ "[ ]" in
  if i <? n_states self - 1 then representation +:+ " - " else representation.

Fixpoint render_loop {Reward} (self : RiverSwimEnv Reward)
    (representation : string) (range : list Z) : string :=
  match range with
  | [] => representation
  | i :: rest => render_loop self (render_body self representation i) rest
  end.

(** [render_mode] is the attribute of that name, stored by the constructor
    and read nowhere else.  The value is the line handed to [print], and
    [None] when nothing is printed. *)
Definition render {Reward} (render_mode : option string) (self : RiverSwimEnv Reward)
  : option string :=
  match render_mode with
  | Some mode =>
      if String.eqb mode "ansi" then
        Some ("RiverSwim State: " +:+ render_loop self "" (seqZ 0 (n_states self)))
      else None
  | None => None
  end.

(** The box drawn for state [i] when the current state is [s]. *)
Definition box (s i : Z) : string := if i =? s then "[X]" else "[ ]".

(** ** Rows with one cell that is not zero *)

(** The number of cells of a row that are not zero. *)
Definition weight (l : list spec_float) : nat :=
  length (List.filter (fun a => negb (is_zero a)) l).

(** Every cell of the row is a zero or the value [x]. *)
Definition zero_or (x : spec_float) (l : list spec_float) : Prop :=
  Forall (fun a => is_zero a = true \/ a = x) l.

(** [v] is the sum of cells of which [c] are [x] and the others zero, with
    [c] at most one. *)
Definition carries (x v : spec_float) (c : nat) : Prop :=
  (c = 0%nat /\ is_zero v = true) \/ (c = 1%nat /\ v = x).


(** ** Rows the sampler refuses *)

(** The sampler refuses a row with a cell that is negative or not a number,
    as numpy does before it draws. *)
Definition sampler_refuses
    (choice : Generator -> Z -> list spec_float -> option (Z * Generator)) : Prop :=
  forall g n p, forallb is_probability p = false -> choice g n p = None.

(** A configuration outside the documented bounds whose rows still sum to
    one: -0.25 to the left and 0.5 to the right, hence 0.75 to stay; the
    environment the constructor builds for it when its first draw is 1; and
    the row of state 1 under action 1. *)
Definition negative_config : Config Z :=
  {| cfg_n_states := 6;
     cfg_max_reward := 10000;
     cfg_intermediate_reward := 5;
     cfg_commom_reward := 0;
     cfg_p_right := f64_ratio 1 2;
     cfg_p_left := f64_ratio (-1) 4 |}.

Definition negative_env : RiverSwimEnv Z :=
  match __init__ choice_last negative_config 0 with
  | inr self => self
  | inl _ => init_fields negative_config 0 (mkGenerator 0 0)
  end.

Definition negative_row : list spec_float :=
  [f32_of_f64 (f64_ratio (-1) 4); f32_of_f64 (f64_ratio 3 4); f32_of_f64 (f64_ratio 1 2);
   zero; zero; zero].

(** A river without a state. *)
Definition empty_config : Config Z :=
  {| cfg_n_states := 0;
     cfg_max_reward := 10000;
     cfg_intermediate_reward := 5;
     cfg_commom_reward := 0;
     cfg_p_right := f64_ratio 3 10;
     cfg_p_left := f64_ratio 1 10 |}.
(** ** Arrays: indexing and assignment *)

Lemma norm_index_nonneg (len : nat) (i : Z) :
  0 <= i < Z.of_nat len -> norm_index len i = ok (Z.to_nat i).
Proof.
  intros Hi. unfold norm_index.
  destruct (Z.leb_spec 0 i); [|lia].
  destruct (Z.ltb_spec i (Z.of_nat len)); [reflexivity|lia].
Qed.

Lemma lookup_or_raise_Some {A} (l : list A) (i : nat) (x : A) :
  l !! i = Some x -> lookup_or_raise l i = ok x.
Proof. intros H. unfold lookup_or_raise. now rewrite H. Qed.

Lemma shape_plane n na m T s plane :
  shape n na m T -> T !! s = Some plane ->
  Z.of_nat (length plane) = na /\ Forall (fun row => Z.of_nat (length row) = m) plane.
Proof. intros [_ HT] Hs. exact (Forall_lookup_1 _ _ _ _ HT Hs). Qed.

Lemma shape_row n na m T s a plane row :
  shape n na m T -> T !! s = Some plane -> plane !! a = Some row ->
  Z.of_nat (length row) = m.
Proof.
  intros HT Hs Ha. destruct (shape_plane _ _ _ _ _ _ HT Hs) as [_ Hp].
  exact (Forall_lookup_1 _ _ _ _ Hp Ha).
Qed.

Lemma shape_entry n na m T s a j :
  shape n na m T -> 0 <= s < n -> 0 <= a < na -> 0 <= j < m ->
  is_Some (entry T s a j).
Proof.
  intros HT Hs Ha Hj. unfold entry.
  destruct (lookup_lt_is_Some_2 T (Z.to_nat s)) as [plane Hp].
  { destruct HT as [HT _]. lia. }
  destruct (shape_plane _ _ _ _ _ _ HT Hp) as [Hlen _].
  destruct (lookup_lt_is_Some_2 plane (Z.to_nat a)) as [row Hr]; [lia|].
  pose proof (shape_row _ _ _ _ _ _ _ _ HT Hp Hr) as Hrow.
  rewrite Hp. simpl. rewrite Hr. simpl.
  apply lookup_lt_is_Some_2. lia.
Qed.

(** Assignment inside the array succeeds, keeps the shape and changes the
    addressed cell only. *)
Lemma setitem_spec n na m T i a j v :
  shape n na m T -> 0 <= i < n -> 0 <= a < na -> 0 <= j < m ->
  exists T',
    setitem T i a j v = ok T' /\ shape n na m T' /\
    forall s' a' j', 0 <= s' -> 0 <= a' -> 0 <= j' ->
      entry T' s' a' j' =
        if (s' =? i) && (a' =? a) && (j' =? j) then Some v else entry T s' a' j'.
Proof.
  intros HT Hi Ha Hj.
  destruct (lookup_lt_is_Some_2 T (Z.to_nat i)) as [plane Hp].
  { destruct HT as [HT _]. lia. }
  destruct (shape_plane _ _ _ _ _ _ HT Hp) as [Hlen Hrows].
  destruct (lookup_lt_is_Some_2 plane (Z.to_nat a)) as [row Hr]; [lia|].
  pose proof (shape_row _ _ _ _ _ _ _ _ HT Hp Hr) as Hrow.
  eexists. split; [|split].
  - unfold setitem.
    rewrite norm_index_nonneg by (destruct HT as [HT _]; lia). simpl.
    rewrite (lookup_or_raise_Some _ _ _ Hp). simpl.
    rewrite norm_index_nonneg by lia. simpl.
    rewrite (lookup_or_raise_Some _ _ _ Hr). simpl.
    rewrite norm_index_nonneg by lia. simpl. reflexivity.
  - destruct HT as [HTlen HTall]. split.
    + now rewrite length_insert.
    + apply Forall_insert; [assumption|]. split.
      * now rewrite length_insert.
      * apply Forall_insert; [assumption|]. now rewrite length_insert.
  - intros s' a' j' Hs' Ha' Hj'. unfold entry.
    destruct (Z.eqb_spec s' i) as [->|Hsi]; simpl.
    + rewrite list_lookup_insert_eq by (destruct HT as [HT _]; lia). simpl.
      rewrite Hp. simpl.
      destruct (Z.eqb_spec a' a) as [->|Hai]; simpl.
      * rewrite list_lookup_insert_eq by lia. simpl. rewrite Hr. simpl.
        destruct (Z.eqb_spec j' j) as [->|Hji]; simpl.
        -- apply list_lookup_insert_eq. lia.
        -- apply list_lookup_insert_ne. lia.
      * rewrite list_lookup_insert_ne by lia. reflexivity.
    + rewrite list_lookup_insert_ne by lia. reflexivity.
Qed.

Lemma zeros_spec n na m :
  0 <= n -> 0 <= na -> 0 <= m ->
  exists T, zeros n na m = ok T /\ shape n na m T /\
    forall s a j, 0 <= s < n -> 0 <= a < na -> 0 <= j < m -> entry T s a j = Some zero.
Proof.
  intros Hn Hna Hm. eexists. split; [|split].
  - unfold zeros.
    destruct (Z.ltb_spec n 0); [lia|]. destruct (Z.ltb_spec na 0); [lia|].
    destruct (Z.ltb_spec m 0); [lia|]. reflexivity.
  - split.
    + rewrite length_replicate. lia.
    + apply Forall_replicate. split.
      * rewrite length_replicate. lia.
      * apply Forall_replicate. rewrite length_replicate. lia.
  - intros s a j Hs Ha Hj. unfold entry.
    rewrite lookup_replicate_2 by lia. simpl.
    rewrite lookup_replicate_2 by lia. simpl.
    apply lookup_replicate_2. lia.
Qed.

(** ** The transition kernel *)

Ltac split_tests :=
  repeat match goal with
    | |- context [?x =? ?y] => destruct (Z.eqb_spec x y); try lia; simpl
    | |- context [?x <? ?y] => destruct (Z.ltb_spec x y); try lia; simpl
    end.

Ltac do_setitem HT name :=
  let T' := fresh "T" in
  let E := fresh "E" name in
  let S := fresh "S" name in
  let G := fresh "G" name in
  match goal with
  | |- context [setitem ?T ?i ?a ?j ?v] =>
      destruct (setitem_spec _ _ _ T i a j v HT) as (T' & E & S & G);
      [lia | lia | lia | rewrite E; simpl]
  end.

Section Kernel.

Context {Reward : Type}.
Variable self : RiverSwimEnv Reward.

Local Abbreviation n := (n_states self).
Local Abbreviation spec := (kernel_spec n (p_left self) (p_stay self) (p_right self)).
Local Abbreviation rows_done := (rows_done self).

Lemma transition_body_spec T k :
  2 <= n -> 0 <= k < n -> shape n 2 n T -> rows_done k T ->
  exists T', transition_body self T k = ok T' /\ shape n 2 n T' /\ rows_done (k + 1) T'.
Proof.
  intros Hn Hk HT Hinv. unfold transition_body.
  destruct (Z.ltb_spec 0 k) as [Hk0|Hk0];
    destruct (Z.ltb_spec k (n - 1)) as [Hk1|Hk1]; try lia.
  - do_setitem HT a. do_setitem Sa b. do_setitem Sb c. do_setitem Sc d.
    eexists. split; [reflexivity|]. split; [assumption|].
    intros s a j Hs Ha Hj.
    rewrite Gd, Gc, Gb, Ga, Hinv by lia. unfold kernel_spec.
    split_tests; reflexivity.
  - do_setitem HT a. do_setitem Sa b. do_setitem Sb c. do_setitem Sc d.
    do_setitem Sd e.
    eexists. split; [reflexivity|]. split; [assumption|].
    intros s a j Hs Ha Hj.
    rewrite Ge, Gd, Gc, Gb, Ga, Hinv by lia. unfold kernel_spec.
    split_tests; reflexivity.
  - do_setitem HT a. do_setitem Sa b. do_setitem Sb c.
    eexists. split; [reflexivity|]. split; [assumption|].
    intros s a j Hs Ha Hj.
    rewrite Gc, Gb, Ga, Hinv by lia. unfold kernel_spec.
    split_tests; reflexivity.
Qed.

Lemma transition_loop_spec (len : nat) : forall T k,
  2 <= n -> 0 <= k -> k + Z.of_nat len <= n -> shape n 2 n T -> rows_done k T ->
  exists T', transition_loop self T (seqZ k (Z.of_nat len)) = ok T' /\
             shape n 2 n T' /\ rows_done (k + Z.of_nat len) T'.
Proof.
  induction len as [|len IH]; intros T k Hn Hk Hlen HT Hinv.
  - exists T. simpl. rewrite Z.add_0_r. auto.
  - rewrite seqZ_cons by lia. simpl transition_loop.
    destruct (transition_body_spec T k) as (T1 & E1 & S1 & I1); try assumption; [lia|].
    rewrite E1. simpl.
    replace (Z.pred (Z.of_nat (S len))) with (Z.of_nat len) by lia.
    destruct (IH T1 (Z.succ k)) as (T2 & E2 & S2 & I2); try assumption; try lia.
    exists T2. split; [assumption|]. split; [assumption|].
    replace (k + Z.of_nat (S len)) with (Z.succ k + Z.of_nat len) by lia.
    exact I2.
Qed.

Lemma transition_table_spec :
  2 <= n -> n_actions self = 2 ->
  exists T, transition_table self = ok T /\ shape n 2 n T /\
    forall s a j, 0 <= s < n -> 0 <= a < 2 -> 0 <= j < n ->
      entry T s a j = Some (spec s a j).
Proof.
  intros Hn Ha. unfold transition_table. rewrite Ha.
  destruct (zeros_spec n 2 n) as (T0 & E0 & S0 & G0); try lia.
  rewrite E0. simpl.
  destruct (transition_loop_spec (Z.to_nat n) T0 0) as (T & E & S & G);
    try assumption; try lia.
  { intros s a j Hs Ha' Hj. rewrite G0 by lia.
    destruct (Z.ltb_spec s 0); [lia|reflexivity]. }
  rewrite Z2Nat.id in E, G by lia.
  exists T. split; [assumption|]. split; [assumption|].
  intros s a j Hs Ha' Hj. rewrite G by lia.
  destruct (Z.ltb_spec s (0 + n)); [reflexivity|lia].
Qed.

End Kernel.

(** ** Results, shapes and the assertions of the builder *)

Lemma rbind_ok {A B} (m : result A) (k : A -> result B) (y : B) :
  rbind m k = ok y -> exists x, m = ok x /\ k x = ok y.
Proof. destruct m as [e|x]; simpl; [discriminate|]. intros H. now exists x. Qed.

Ltac inv_bind H :=
  let x := fresh "x" in
  let E := fresh "E" in
  apply rbind_ok in H; destruct H as (x & E & H).

Lemma lookup_or_raise_ok {A} (l : list A) (i : nat) (x : A) :
  lookup_or_raise l i = ok x -> l !! i = Some x.
Proof. unfold lookup_or_raise. destruct (l !! i); [now intros [= ->]|discriminate]. Qed.

Lemma norm_index_error (len : nat) (i : Z) (e : exn) :
  norm_index len i = raise e -> e = IndexError.
Proof.
  unfold norm_index.
  destruct ((0 <=? i) && (i <? Z.of_nat len)); [discriminate|].
  destruct ((- Z.of_nat len <=? i) && (i <? 0)); [discriminate|].
  now intros [= <-].
Qed.

Lemma lookup_or_raise_error {A} (l : list A) (i : nat) (e : exn) :
  lookup_or_raise l i = raise e -> e = IndexError.
Proof. unfold lookup_or_raise. destruct (l !! i); [discriminate|now intros [= <-]]. Qed.

Lemma getrow_error T s a e : getrow T s a = raise e -> e = IndexError.
Proof.
  unfold getrow.
  destruct (norm_index (length T) s) as [e1|s'] eqn:E1; simpl.
  { intros [= <-]. eapply norm_index_error, E1. }
  destruct (lookup_or_raise T s') as [e2|plane] eqn:E2; simpl.
  { intros [= <-]. eapply lookup_or_raise_error, E2. }
  destruct (norm_index (length plane) a) as [e3|a'] eqn:E3; simpl.
  { intros [= <-]. eapply norm_index_error, E3. }
  apply lookup_or_raise_error.
Qed.

Lemma setitem_shape n na m T i a j v T' :
  shape n na m T -> setitem T i a j v = ok T' -> shape n na m T'.
Proof.
  intros HT H. unfold setitem in H.
  inv_bind H. inv_bind H. inv_bind H. inv_bind H. inv_bind H.
  injection H as <-.
  apply lookup_or_raise_ok in E0, E2.
  destruct (shape_plane _ _ _ _ _ _ HT E0) as [Hlen Hrows].
  pose proof (shape_row _ _ _ _ _ _ _ _ HT E0 E2) as Hrow.
  destruct HT as [HTlen HTall]. split.
  - now rewrite length_insert.
  - apply Forall_insert; [assumption|]. split.
    + now rewrite length_insert.
    + apply Forall_insert; [assumption|]. now rewrite length_insert.
Qed.

Lemma zeros_shape n na m T : zeros n na m = ok T -> shape n na m T.
Proof.
  unfold zeros.
  destruct (Z.ltb_spec n 0); [discriminate|].
  destruct (Z.ltb_spec na 0); [discriminate|].
  destruct (Z.ltb_spec m 0); [discriminate|].
  simpl. intros [= <-]. split.
  - rewrite length_replicate. lia.
  - apply Forall_replicate. split.
    + rewrite length_replicate. lia.
    + apply Forall_replicate. rewrite length_replicate. lia.
Qed.

Section Shapes.

Context {Reward : Type}.
Variable self : RiverSwimEnv Reward.

Lemma transition_body_shape n na m T i T' :
  shape n na m T -> transition_body self T i = ok T' -> shape n na m T'.
Proof.
  intros HT H. unfold transition_body in H. inv_bind H.
  assert (shape n na m x) as Hx.
  { destruct (0 <? i).
    - inv_bind E. inv_bind E. eauto using setitem_shape.
    - inv_bind E. eauto using setitem_shape. }
  destruct (i <? n_states self - 1).
  - eauto using setitem_shape.
  - inv_bind H. eauto using setitem_shape.
Qed.

Lemma transition_loop_shape n na m range : forall T T',
  shape n na m T -> transition_loop self T range = ok T' -> shape n na m T'.
Proof.
  induction range as [|i range IH]; intros T T' HT H; simpl in H.
  - now injection H as <-.
  - inv_bind H. eauto using transition_body_shape.
Qed.

Lemma transition_table_shape T :
  transition_table self = ok T ->
  shape (n_states self) (n_actions self) (n_states self) T.
Proof.
  unfold transition_table. intros H. inv_bind H.
  eapply transition_loop_shape; [|exact H]. now apply zeros_shape.
Qed.

Lemma get_transition_ok T :
  _get_transition self = ok T ->
  transition_table self = ok T /\
  exists s0 s1, sum_axis T 0 = ok s0 /\ all_eq_one s0 = true /\
                sum_axis T 1 = ok s1 /\ all_eq_one s1 = true.
Proof.
  unfold _get_transition. intros H.
  inv_bind H. inv_bind H. inv_bind H. inv_bind H. inv_bind H.
  injection H as <-. split; [assumption|].
  exists x0, x2. unfold assert in E1, E3.
  destruct (all_eq_one x0); [|discriminate].
  destruct (all_eq_one x2); [|discriminate]. auto.
Qed.

End Shapes.

Lemma sum_axis_lookup a : forall T sums s plane,
  sum_axis T a = ok sums -> T !! s = Some plane ->
  exists a' row, norm_index (length plane) a = ok a' /\ plane !! a' = Some row /\
                 sums !! s = Some (row_sum row).
Proof.
  induction T as [|p T IH]; intros sums s plane H Hs; [discriminate|].
  simpl in H. inv_bind H. inv_bind H. inv_bind H. injection H as <-.
  destruct s as [|s]; simpl in Hs.
  - injection Hs as <-. exists x, x0. apply lookup_or_raise_ok in E0. auto.
  - destruct (IH x1 s plane E1 Hs) as (a' & row & ? & ? & ?).
    exists a', row. auto.
Qed.

Lemma all_eq_one_lookup v s x :
  all_eq_one v = true -> v !! s = Some x -> f32_eqb x one32 = true.
Proof.
  revert s. induction v as [|y v IH]; intros s H Hs; [discriminate|].
  simpl in H. apply andb_prop in H as [Hy Hv].
  destruct s as [|s]; simpl in Hs.
  - now injection Hs as <-.
  - eauto.
Qed.

(** Every row of a table that [_get_transition] returned can be fetched, has
    one cell per state and passed the check of its sum. *)
Lemma getrow_constructed {Reward} (self : RiverSwimEnv Reward) s a :
  constructed self -> 0 <= s < n_states self -> a = 0 \/ a = 1 ->
  exists row, getrow (transition self) s a = ok row /\
    Z.of_nat (length row) = n_states self /\
    f32_eqb (row_sum row) one32 = true /\
    forall j, 0 <= j -> entry (transition self) s a j = row !! Z.to_nat j.
Proof.
  intros [Hna HT] Hs Ha.
  apply get_transition_ok in HT as (Htab & s0 & s1 & E0 & A0 & E1 & A1).
  apply transition_table_shape in Htab. rewrite Hna in Htab.
  destruct (lookup_lt_is_Some_2 (transition self) (Z.to_nat s)) as [plane Hp].
  { destruct Htab as [Hlen _]. lia. }
  destruct (shape_plane _ _ _ _ _ _ Htab Hp) as [Hlen _].
  assert (exists sums, sum_axis (transition self) a = ok sums /\ all_eq_one sums = true)
    as (sums & Es & As) by (destruct Ha as [->| ->]; eauto).
  destruct (sum_axis_lookup _ _ _ _ _ Es Hp) as (a' & row & Hn & Hr & Hsum).
  rewrite norm_index_nonneg in Hn by lia. injection Hn as <-.
  exists row. split; [|split; [|split]].
  - unfold getrow.
    rewrite norm_index_nonneg by (destruct Htab as [Hl _]; lia). simpl.
    rewrite (lookup_or_raise_Some _ _ _ Hp). simpl.
    rewrite norm_index_nonneg by lia. simpl.
    now apply lookup_or_raise_Some.
  - eapply shape_row; eauto.
  - eapply all_eq_one_lookup; eauto.
  - intros j Hj. unfold entry. rewrite Hp. simpl. now rewrite Hr.
Qed.

(** ** Rows and their support *)

Lemma f32_add_zeros x y : is_zero x = true -> is_zero y = true -> is_zero (f32_add x y) = true.
Proof. destruct x as [[]| | |], y as [[]| | |]; simpl; intros; congruence. Qed.

Lemma zero_is_not_one x : is_zero x = true -> f32_eqb x one32 = false.
Proof. destruct x as [[]| | |]; intros H; try discriminate H; reflexivity. Qed.

Lemma foldl_zeros l : forall acc,
  is_zero acc = true -> all_zero l -> is_zero (foldl f32_add acc l) = true.
Proof.
  induction l as [|x l IH]; intros acc Hacc Hl; [assumption|]. simpl.
  apply Forall_cons in Hl as [Hx Hl]. apply IH; [|assumption].
  now apply f32_add_zeros.
Qed.

Lemma zip_with_zeros r : forall l,
  all_zero r -> all_zero l -> all_zero (zip_with f32_add r l).
Proof.
  induction r as [|x r IH]; intros [|y l] Hr Hl; simpl; try constructor.
  - apply Forall_cons in Hr as [Hx _]. apply Forall_cons in Hl as [Hy _].
    now apply f32_add_zeros.
  - apply Forall_cons in Hr as [_ Hr]. apply Forall_cons in Hl as [_ Hl]. auto.
Qed.

Lemma add_blocks_zeros (n : nat) : forall l r,
  (length l <= n)%nat -> all_zero r -> all_zero l -> all_zero (add_blocks r l).
Proof.
  induction n as [n IH] using lt_wf_ind. intros l r Hlen Hr Hl.
  destruct l as [|a0 [|a1 [|a2 [|a3 [|a4 [|a5 [|a6 [|a7 rest]]]]]]]]; try assumption.
  simpl. simpl in Hlen.
  assert (all_zero [a0; a1; a2; a3; a4; a5; a6; a7] /\ all_zero rest) as [Hh Ht].
  { apply (Forall_app _ [a0; a1; a2; a3; a4; a5; a6; a7] rest). exact Hl. }
  apply (IH (length rest)); [lia|lia| |assumption].
  now apply zip_with_zeros.
Qed.

Lemma combine8_zeros r : all_zero r -> is_zero (combine8 r) = true.
Proof.
  intros Hr. unfold combine8.
  destruct r as [|r0 [|r1 [|r2 [|r3 [|r4 [|r5 [|r6 [|r7 [|r8 r]]]]]]]]]; try reflexivity.
  repeat (apply Forall_cons in Hr as [? Hr]).
  repeat apply f32_add_zeros; assumption.
Qed.

Lemma sum_block_zeros l : all_zero l -> is_zero (sum_block l) = true.
Proof.
  intros Hl. unfold sum_block. apply foldl_zeros; [|now apply Forall_drop].
  apply combine8_zeros. eapply add_blocks_zeros; [reflexivity| |].
  - now apply Forall_take.
  - now apply Forall_drop, Forall_take.
Qed.

Lemma pairwise_sum_zeros fuel : forall l,
  all_zero l -> is_zero (pairwise_sum fuel l) = true.
Proof.
  induction fuel as [|fuel IH]; intros l Hl; simpl;
    destruct (Nat.ltb (length l) 8); try (now apply foldl_zeros);
    destruct (Nat.leb (length l) 128); try (now apply sum_block_zeros).
  apply f32_add_zeros; apply IH; [now apply Forall_take|now apply Forall_drop].
Qed.

Lemma row_sum_zeros l : all_zero l -> is_zero (row_sum l) = true.
Proof.
  intros Hl. unfold row_sum. apply f32_add_zeros; [reflexivity|].
  now apply pairwise_sum_zeros.
Qed.

Lemma pairwise_sum_S fuel l :
  pairwise_sum (S fuel) l =
    if Nat.ltb (length l) 8 then foldl f32_add neg_zero l
    else if Nat.leb (length l) 128 then sum_block l
    else f32_add
           (pairwise_sum fuel (take (length l / 2 - (length l / 2) mod 8)%nat l))
           (pairwise_sum fuel (drop (length l / 2 - (length l / 2) mod 8)%nat l)).
Proof. reflexivity. Qed.

(** The length of the row is fuel enough: more fuel changes nothing. *)
Lemma pairwise_sum_fuel f1 : forall f2 l,
  (length l <= f1)%nat -> (length l <= f2)%nat ->
  pairwise_sum f1 l = pairwise_sum f2 l.
Proof.
  induction f1 as [|f1 IH]; intros f2 l H1 H2.
  - destruct l; [|simpl in H1; lia]. now destruct f2.
  - destruct f2 as [|f2].
    { destruct l; [reflexivity|simpl in H2; lia]. }
    rewrite !pairwise_sum_S.
    destruct (Nat.ltb_spec (length l) 8); [reflexivity|].
    destruct (Nat.leb_spec (length l) 128); [reflexivity|].
    pose proof (Nat.mod_upper_bound (length l / 2) 8 ltac:(lia)) as Hm.
    pose proof (Nat.Div0.mod_le (length l / 2) 8) as Hm'.
    assert (length l / 2 <= length l - 64)%nat as Hd.
    { apply Nat.Div0.div_le_upper_bound. lia. }
    assert (64 <= length l / 2)%nat as Hd'.
    { apply Nat.div_le_lower_bound; lia. }
    f_equal; apply IH; rewrite ?length_take, ?length_drop; lia.
Qed.

Lemma zeros_or_support l :
  all_zero l \/ Exists (fun x => is_zero x = false) l.
Proof.
  induction l as [|x l [IH|IH]].
  - left. constructor.
  - destruct (is_zero x) eqn:Hx.
    + left. now constructor.
    + right. now apply Exists_cons_hd.
  - right. now apply Exists_cons_tl.
Qed.

(** A row whose sum is one has a cell that is not zero. *)
Lemma row_sum_support p :
  f32_eqb (row_sum p) one32 = true -> Exists (fun x => is_zero x = false) p.
Proof.
  intros H. destruct (zeros_or_support p) as [Hz|Hs]; [|assumption].
  apply row_sum_zeros, zero_is_not_one in Hz. congruence.
Qed.

Lemma first_support_spec p :
  Exists (fun x => is_zero x = false) p ->
  0 <= first_support p < Z.of_nat (length p) /\
  exists x, p !! Z.to_nat (first_support p) = Some x /\ is_zero x = false.
Proof.
  induction 1 as [x p Hx|x p _ [Hr (y & Hy & Hz)]]; simpl.
  - rewrite Hx. split; [lia|]. now exists x.
  - destruct (is_zero x) eqn:Hx.
    + split; [lia|]. exists y.
      replace (Z.to_nat (1 + first_support p)) with (S (Z.to_nat (first_support p))) by lia.
      auto.
    + split; [lia|]. now exists x.
Qed.

(** ** Distributions *)

Lemma is_distribution_spec n p :
  is_distribution n p = true <->
  Z.of_nat (length p) = n /\ forallb is_probability p = true /\
  f32_eqb (row_sum p) one32 = true.
Proof.
  unfold is_distribution. rewrite !andb_true_iff, Z.eqb_eq. tauto.
Qed.

Lemma probability_positive x :
  is_probability x = true -> is_zero x = false -> is_positive x = true.
Proof. destruct x as [?|?| |[] ? ?]; simpl; congruence. Qed.

Lemma positive_not_zero x : is_positive x = true -> is_zero x = false.
Proof. destruct x; simpl; congruence. Qed.

Lemma forallb_lookup {A} (f : A -> bool) (l : list A) : forall (i : nat) x,
  forallb f l = true -> l !! i = Some x -> f x = true.
Proof.
  induction l as [|y l IH]; intros i x H Hx; [discriminate|].
  simpl in H. apply andb_prop in H as [Hy Hl].
  destruct i as [|i]; simpl in Hx.
  - now injection Hx as <-.
  - eauto.
Qed.

Lemma lookup_forallb {A} (f : A -> bool) (l : list A) :
  (forall (i : nat) x, l !! i = Some x -> f x = true) -> forallb f l = true.
Proof.
  induction l as [|y l IH]; intros H; [reflexivity|]. simpl.
  rewrite (H 0%nat y eq_refl). simpl. apply IH.
  intros i x Hx. apply (H (S i) x Hx).
Qed.

Lemma choice_first_in_support : sampler_in_support choice_first.
Proof.
  split.
  - intros g n p H. unfold choice_first. rewrite H. eauto.
  - intros g n p i g' H. unfold choice_first in H.
    destruct (is_distribution n p) eqn:E; [|discriminate]. injection H as <- <-.
    apply is_distribution_spec in E as (Hn & Hp & Hs). rewrite <- Hn.
    destruct (first_support_spec p (row_sum_support p Hs)) as (Hr & x & Hx & Hz).
    split; [assumption|]. exists x. split; [assumption|].
    apply probability_positive; [|assumption]. eapply forallb_lookup; eauto.
Qed.

Lemma choice_head_in_list : sampler_in_list choice_head.
Proof.
  intros g [|x l] Hl; [contradiction|]. simpl. apply list_elem_of_here.
Qed.

Lemma kernel_spec_support n pl ps pr s a j :
  0 <= s < n -> a = 0 \/ a = 1 ->
  is_zero (kernel_spec n pl ps pr s a j) = false -> s - 1 <= j <= s + 1.
Proof.
  intros Hs Ha. unfold kernel_spec.
  destruct Ha as [-> | ->]; simpl; split_tests; intros Hz; try lia; discriminate.
Qed.

(** Under action 0 a cell holds one or zero. *)
Lemma kernel_spec_left n pl ps pr s j :
  is_probability (kernel_spec n pl ps pr s 0 j) = true.
Proof. unfold kernel_spec. simpl. split_tests; reflexivity. Qed.

(** The cells of a row that was fetched are cells of the table. *)
Lemma getrow_cells T s a row :
  getrow T s a = ok row -> no_negative_cell T = true ->
  forallb is_probability row = true.
Proof.
  unfold getrow. intros H HT.
  inv_bind H. inv_bind H. inv_bind H.
  apply lookup_or_raise_ok in E0, H.
  eapply (forallb_lookup (forallb is_probability)); [|exact H].
  eapply (forallb_lookup (forallb (forallb is_probability))); [exact HT|exact E0].
Qed.

(** ** [reset] and [step] *)

Lemma env_eta {Reward} (self : RiverSwimEnv Reward) :
  set_current_state (set_np_random self (np_random self)) (current_state self) = self.
Proof. now destruct self. Qed.

Section Dynamics.

Context {Reward : Type}.
Variable choice : Generator -> Z -> list spec_float -> option (Z * Generator).
Variable choice_list : Generator -> list Z -> Z * Generator.

Implicit Types self : RiverSwimEnv Reward.

Lemma transition_body_params self1 self2 T i :
  n_states self1 = n_states self2 -> p_left self1 = p_left self2 ->
  p_stay self1 = p_stay self2 -> p_right self1 = p_right self2 ->
  transition_body self1 T i = transition_body self2 T i.
Proof. intros Hn Hl Hs Hr. unfold transition_body. now rewrite Hn, Hl, Hs, Hr. Qed.

(** The builder reads the sizes and the three probabilities, nothing else. *)
Lemma get_transition_params self1 self2 :
  n_states self1 = n_states self2 -> n_actions self1 = n_actions self2 ->
  p_left self1 = p_left self2 -> p_stay self1 = p_stay self2 ->
  p_right self1 = p_right self2 ->
  _get_transition self1 = _get_transition self2.
Proof.
  intros Hn Ha Hl Hs Hr.
  assert (forall range T, transition_loop self1 T range = transition_loop self2 T range) as Hloop.
  { induction range as [|i range IH]; intros T; [reflexivity|]. simpl.
    rewrite (transition_body_params self1 self2) by assumption.
    destruct (transition_body self2 T i); simpl; auto. }
  unfold _get_transition, transition_table. rewrite Hn, Ha.
  destruct (zeros _ _ _); simpl; [reflexivity|]. now rewrite Hloop.
Qed.

(** *** [reset] *)

(** A seed the library accepts: the generator is replaced and the state set. *)
Lemma reset_accepted self seed os :
  accepted_seed seed = true ->
  reset self seed os =
    (set_current_state
       (set_np_random self {| entropy := default os seed; drawn := 0 |}) 0,
     ok (0, ∅)).
Proof.
  intros H. unfold reset, np_random_of_seed. destruct seed as [z|]; simpl in *.
  - destruct (Z.ltb_spec z 0); [lia|]. reflexivity.
  - reflexivity.
Qed.

(** A seed the library refuses: nothing is assigned. *)
Lemma reset_refused self seed os :
  accepted_seed seed = false -> reset self seed os = (self, raise Error).
Proof.
  intros H. unfold reset, np_random_of_seed. destruct seed as [z|]; simpl in *.
  - destruct (Z.ltb_spec z 0); [reflexivity|lia].
  - discriminate.
Qed.

Lemma reset_frame self seed os :
  exists s g, fst (reset self seed os) = set_current_state (set_np_random self g) s.
Proof.
  destruct (accepted_seed seed) eqn:H.
  - rewrite (reset_accepted _ _ _ H). now eexists _, _.
  - rewrite (reset_refused _ _ _ H). eexists _, _. symmetry. apply env_eta.
Qed.

(** *** [step] *)

Lemma step_invalid self action :
  action <> 0 -> action <> 1 -> step choice self action = (self, raise InvalidAction).
Proof.
  intros H0 H1. unfold step.
  destruct (Z.eqb_spec action 0); [contradiction|].
  destruct (Z.eqb_spec action 1); [contradiction|]. reflexivity.
Qed.

(** What [step] does once the action is accepted, the row fetched and a
    state drawn. *)
Lemma step_sampled self action row i g :
  action = 0 \/ action = 1 ->
  getrow (transition self) (current_state self) action = ok row ->
  choice (np_random self) (n_states self) row = Some (i, g) ->
  step choice self action =
    (set_current_state (set_np_random self g) i,
     ok (mkStep i (reward_spec self (current_state self) action i) false false ∅)).
Proof.
  intros Ha Hrow Hc. unfold step. rewrite Hrow.
  replace (negb ((action =? 0) || (action =? 1))) with false
    by (destruct Ha as [-> | ->]; reflexivity).
  unfold ok at 1. cbv beta iota zeta. rewrite Hc.
  cbn. unfold reward_spec. rewrite (Z.eqb_sym i (current_state self)).
  destruct (Z.eqb_spec (current_state self) i) as [Hi|Hi]; [|reflexivity].
  cbn. now rewrite <- Hi.
Qed.

(** What [step] does when the sampler refuses the row. *)
Lemma step_refused self action row :
  action = 0 \/ action = 1 ->
  getrow (transition self) (current_state self) action = ok row ->
  choice (np_random self) (n_states self) row = None ->
  step choice self action = (self, raise ValueError).
Proof.
  intros Ha Hrow Hc. unfold step. rewrite Hrow.
  replace (negb ((action =? 0) || (action =? 1))) with false
    by (destruct Ha as [-> | ->]; reflexivity).
  unfold ok at 1. cbv beta iota zeta. now rewrite Hc.
Qed.

(** A step that raises leaves the environment as it was. *)
Lemma step_error_unchanged self self' a e :
  step choice self a = (self', raise e) -> self' = self.
Proof.
  unfold step. destruct (negb _); [now intros [= <- _]|].
  destruct (getrow _ _ _); [now intros [= <- _]|].
  destruct (choice _ _ _) as [[i g]|]; [discriminate|now intros [= <- _]].
Qed.

(** A step changes the current state and the generator at most. *)
Lemma step_frame self action self' r :
  step choice self action = (self', r) ->
  exists s g, self' = set_current_state (set_np_random self g) s.
Proof.
  unfold step. intros H.
  destruct (negb _).
  { injection H as <- _. eexists _, _. symmetry. apply env_eta. }
  destruct (getrow _ _ _).
  { injection H as <- _. eexists _, _. symmetry. apply env_eta. }
  destruct (choice _ _ _) as [[i g]|].
  - injection H as <- _. now eexists _, _.
  - injection H as <- _. eexists _, _. symmetry. apply env_eta.
Qed.

(** Whatever [step] returns normally was drawn from the row of the current
    state, obeys the reward rule, carries two false flags and an empty
    dictionary, and is the new current state. *)
Lemma step_ok_inv self action self' x :
  step choice self action = (self', ok x) ->
  (action = 0 \/ action = 1) /\
  reward x = reward_spec self (current_state self) action (next_state x) /\
  terminal x = false /\ truncated x = false /\ info x = ∅ /\
  current_state self' = next_state x /\
  exists row g,
    getrow (transition self) (current_state self) action = ok row /\
    choice (np_random self) (n_states self) row = Some (next_state x, g) /\
    np_random self' = g.
Proof.
  intros H.
  assert (action = 0 \/ action = 1) as Ha.
  { unfold step in H.
    destruct (Z.eqb_spec action 0); [auto|].
    destruct (Z.eqb_spec action 1); [auto|]. discriminate. }
  split; [assumption|].
  destruct (getrow (transition self) (current_state self) action) as [e|row] eqn:Hrow.
  - unfold step in H. rewrite Hrow in H. destruct (negb _); discriminate.
  - destruct (choice (np_random self) (n_states self) row) as [[i g]|] eqn:Hc.
    + rewrite (step_sampled _ _ _ _ _ Ha Hrow Hc) in H.
      injection H as <- <-. simpl. repeat (split; [reflexivity|]).
      exists row, g. auto.
    + rewrite (step_refused _ _ _ Ha Hrow Hc) in H. discriminate.
Qed.

(** *** Reachable environments *)

Lemma init_inv cfg os self :
  __init__ choice_list cfg os = ok self ->
  0 < cfg_n_states cfg /\
  exists T,
    _get_transition (init_fields cfg 0 (mkGenerator 0 0)) = ok T /\
    self = set_transition
             (init_fields cfg (fst (choice_list (mkGenerator os 0) [0; 1]))
                (snd (choice_list (mkGenerator os 0) [0; 1]))) T.
Proof.
  unfold __init__, np_random_of_seed. intros H. simpl in H.
  destruct (choice_list _ _) as [s g]. simpl.
  inv_bind H. inv_bind H. injection H as <-.
  unfold assert in E. destruct (Z.ltb_spec 0 (cfg_n_states cfg)); [|discriminate].
  split; [assumption|]. exists x0. split; [|reflexivity].
  rewrite <- E0. now apply get_transition_params.
Qed.

Lemma instance_constructed cfg T g self :
  _get_transition (init_fields cfg 0 g) = ok T -> instance_of cfg T self ->
  constructed self /\ n_states self = cfg_n_states cfg.
Proof.
  intros HT Hself. rewrite Hself. split; [split|]; try reflexivity.
  transitivity (_get_transition (init_fields cfg 0 g)); [|exact HT].
  now apply get_transition_params.
Qed.

Lemma reachable_instance cfg self :
  reachable choice choice_list cfg self ->
  exists T, _get_transition (init_fields cfg 0 (mkGenerator 0 0)) = ok T /\
            instance_of cfg T self.
Proof.
  induction 1 as [os self Hinit|self seed os _ (T & HT & Hself)
                 |self action self' r _ (T & HT & Hself) Hstep].
  - apply init_inv in Hinit as (_ & T & HT & ->). exists T. split; [assumption|reflexivity].
  - exists T. split; [assumption|].
    destruct (reset_frame self seed os) as (s & g & ->). unfold instance_of. simpl.
    rewrite Hself. reflexivity.
  - exists T. split; [assumption|].
    apply step_frame in Hstep as (s & g & ->). unfold instance_of. simpl.
    rewrite Hself. reflexivity.
Qed.

Lemma reachable_constructed cfg self :
  reachable choice choice_list cfg self ->
  constructed self /\ n_states self = cfg_n_states cfg.
Proof.
  intros H. apply reachable_instance in H as (T & HT & Hself).
  eapply instance_constructed; eauto.
Qed.

Hypothesis choice_support : sampler_in_support choice.

(** *** Steps that return *)

(** The sampler draws from a row that is a distribution, so [step] returns. *)
Lemma step_total_row self action row :
  action = 0 \/ action = 1 ->
  getrow (transition self) (current_state self) action = ok row ->
  is_distribution (n_states self) row = true ->
  exists self' x, step choice self action = (self', ok x).
Proof.
  intros Ha Hrow Hd.
  destruct (proj1 choice_support (np_random self) _ _ Hd) as [[i g] Hc].
  rewrite (step_sampled _ _ _ _ _ Ha Hrow Hc). eauto.
Qed.

(** The rows of a table that passed the assertions and has no negative cell
    are distributions. *)
Lemma step_total self action :
  constructed self -> 0 <= current_state self < n_states self ->
  action = 0 \/ action = 1 ->
  no_negative_cell (transition self) = true ->
  exists self' x, step choice self action = (self', ok x).
Proof.
  intros Hc Hs Ha Hpos.
  destruct (getrow_constructed self _ action Hc Hs Ha) as (row & Hrow & Hlen & Hsum & _).
  apply (step_total_row _ _ row Ha Hrow).
  apply is_distribution_spec. split; [assumption|]. split; [|assumption].
  eapply getrow_cells; eauto.
Qed.

(** The state sampled by a step lies in the support of its row. *)
Lemma step_in_support self action self' x :
  constructed self -> 0 <= current_state self < n_states self ->
  step choice self action = (self', ok x) ->
  0 <= next_state x < n_states self /\
  exists p, entry (transition self) (current_state self) action (next_state x) = Some p /\
            is_positive p = true.
Proof.
  intros Hc Hs Hstep.
  destruct (step_ok_inv _ _ _ _ Hstep) as (Ha & _ & _ & _ & _ & _ & row & g & Hrow & Hch & _).
  destruct (getrow_constructed self _ action Hc Hs Ha) as (row' & Hrow' & _ & _ & Hent).
  rewrite Hrow in Hrow'. injection Hrow' as <-.
  destruct (proj2 choice_support _ _ _ _ _ Hch) as (Hi & p & Hp & Hz).
  split; [assumption|]. exists p. rewrite Hent by lia. auto.
Qed.

Hypothesis choice_list_elem : sampler_in_list choice_list.

Lemma reachable_in_range cfg self :
  2 <= cfg_n_states cfg ->
  reachable choice choice_list cfg self ->
  0 <= current_state self < n_states self.
Proof.
  intros Hn. induction 1 as [os self Hinit|self seed os Hr IH|self action self' r Hr IH Hstep].
  - pose proof (choice_list_elem (mkGenerator os 0) [0; 1]) as Hin.
    apply init_inv in Hinit as (_ & T & _ & ->). simpl.
    assert (fst (choice_list (mkGenerator os 0) [0; 1]) ∈ [0; 1]) as Hs
      by (apply Hin; discriminate).
    apply list_elem_of_In in Hs. simpl in Hs. lia.
  - apply reachable_constructed in Hr as [_ Hcfg].
    destruct (accepted_seed seed) eqn:Hseed.
    + rewrite (reset_accepted _ _ _ Hseed). simpl. lia.
    + rewrite (reset_refused _ _ _ Hseed). exact IH.
  - destruct r as [e|x].
    + apply step_error_unchanged in Hstep as ->. assumption.
    + pose proof (reachable_constructed _ _ Hr) as [Hc _].
      destruct (step_in_support _ _ _ _ Hc IH Hstep) as [Hx _].
      destruct (step_ok_inv _ _ _ _ Hstep) as (_ & _ & _ & _ & _ & Hcs & _).
      apply step_frame in Hstep as (s & g & ->). simpl in *. lia.
Qed.

End Dynamics.

(** ** Concrete environments *)

Lemma default_env_init : __init__ choice_head default_config 0 = ok default_env.
Proof. vm_compute. reflexivity. Qed.

Lemma default_env_reachable : reachable choice_first choice_head default_config default_env.
Proof. apply reach_init with (os := 0). exact default_env_init. Qed.

Lemma run_reachable {Reward} choice choice_list (cfg : Config Reward) actions :
  forall self, reachable choice choice_list cfg self ->
               reachable choice choice_list cfg (fst (run choice self actions)).
Proof.
  induction actions as [|a rest IH]; intros self Hr; [assumption|]. simpl.
  destruct (step choice self a) as [self1 r] eqn:Hstep.
  specialize (IH self1 (reach_step _ _ _ _ _ _ _ Hr Hstep)).
  destruct (run choice self1 rest) as [self2 rs]. exact IH.
Qed.

Lemma used_env_reachable : reachable choice_first choice_head default_config used_env.
Proof. apply run_reachable, reach_reset, default_env_reachable. Qed.

Lemma used_env_generator : np_random used_env = {| entropy := 7; drawn := 3 |}.
Proof. vm_compute. reflexivity. Qed.

Lemma default_env_constructed : constructed default_env.
Proof. split; vm_compute; reflexivity. Qed.


Lemma used_env_no_negative_cell : no_negative_cell (transition used_env) = true.
Proof. vm_compute. reflexivity. Qed.

(** ** Steps on a constructed table *)

Lemma constructed_table {Reward} (self : RiverSwimEnv Reward) s a j :
  constructed self -> 2 <= n_states self ->
  0 <= s < n_states self -> 0 <= a < 2 -> 0 <= j < n_states self ->
  entry (transition self) s a j =
    Some (kernel_spec (n_states self) (p_left self) (p_stay self) (p_right self) s a j).
Proof.
  intros [Hna HT] Hn Hs Ha Hj.
  destruct (transition_table_spec self Hn Hna) as (T & E & _ & G).
  apply get_transition_ok in HT as [HT _]. rewrite E in HT. injection HT as ->.
  now apply G.
Qed.

(** The rows of action 0 are distributions whatever the configuration. *)
Lemma left_row_is_distribution {Reward} (self : RiverSwimEnv Reward) s :
  constructed self -> 2 <= n_states self -> 0 <= s < n_states self ->
  exists row, getrow (transition self) s 0 = ok row /\
              is_distribution (n_states self) row = true.
Proof.
  intros Hc Hn Hs.
  destruct (getrow_constructed self s 0 Hc Hs (or_introl eq_refl))
    as (row & Hrow & Hlen & Hsum & Hent).
  exists row. split; [assumption|].
  apply is_distribution_spec. split; [assumption|]. split; [|assumption].
  apply lookup_forallb. intros i x Hx.
  pose proof (lookup_lt_Some _ _ _ Hx) as Hi.
  specialize (Hent (Z.of_nat i) ltac:(lia)).
  rewrite Nat2Z.id, Hx, constructed_table in Hent by (try assumption; lia).
  injection Hent as <-. apply kernel_spec_left.
Qed.

Section Locality.

Context {Reward : Type}.
Variable choice : Generator -> Z -> list spec_float -> option (Z * Generator).
Hypothesis choice_support : sampler_in_support choice.

(** Action 0 always returns. *)
Lemma step_total_left (self : RiverSwimEnv Reward) :
  constructed self -> 2 <= n_states self ->
  0 <= current_state self < n_states self ->
  exists self' x, step choice self 0 = (self', ok x).
Proof.
  intros Hc Hn Hs.
  destruct (left_row_is_distribution self _ Hc Hn Hs) as (row & Hrow & Hd).
  exact (step_total_row choice choice_support self 0 row (or_introl eq_refl) Hrow Hd).
Qed.

(** The state sampled carries a non-zero cell of the piecewise kernel. *)
Lemma step_kernel (self self' : RiverSwimEnv Reward) action x :
  constructed self -> 2 <= n_states self ->
  0 <= current_state self < n_states self ->
  step choice self action = (self', ok x) ->
  0 <= next_state x < n_states self /\
  is_zero (kernel_spec (n_states self) (p_left self) (p_stay self) (p_right self)
             (current_state self) action (next_state x)) = false.
Proof.
  intros Hc Hn Hs Hstep.
  destruct (step_ok_inv _ _ _ _ _ Hstep) as (Ha & _).
  destruct (step_in_support choice choice_support _ _ _ _ Hc Hs Hstep) as (Hx & p & Hp & Hz).
  split; [assumption|].
  rewrite constructed_table in Hp by (try assumption; lia).
  injection Hp as ->. now apply positive_not_zero.
Qed.

Lemma step_local (self self' : RiverSwimEnv Reward) action x :
  constructed self -> 2 <= n_states self ->
  0 <= current_state self < n_states self ->
  step choice self action = (self', ok x) ->
  0 <= next_state x < n_states self /\
  current_state self - 1 <= next_state x <= current_state self + 1.
Proof.
  intros Hc Hn Hs Hstep.
  destruct (step_ok_inv _ _ _ _ _ Hstep) as (Ha & _).
  destruct (step_kernel _ _ _ _ Hc Hn Hs Hstep) as [Hx Hz].
  split; [assumption|]. eapply kernel_spec_support; eauto.
Qed.

(** Action 0 in state 0 leaves the state where it is. *)
Lemma step_left_at_origin (self self' : RiverSwimEnv Reward) x :
  constructed self -> 2 <= n_states self -> current_state self = 0 ->
  step choice self 0 = (self', ok x) -> next_state x = 0.
Proof.
  intros Hc Hn Hs Hstep.
  destruct (step_kernel _ _ _ _ Hc Hn ltac:(lia) Hstep) as [Hx Hz].
  rewrite Hs in Hz. unfold kernel_spec in Hz. simpl in Hz.
  destruct (Z.eqb_spec (next_state x) 0); [assumption|discriminate].
Qed.

End Locality.

(** ** Runs *)

Section Runs.

Context {Reward : Type}.
Variable choice : Generator -> Z -> list spec_float -> option (Z * Generator).
Variable choice_list : Generator -> list Z -> Z * Generator.
Variable cfg : Config Reward.

Local Abbreviation reachable := (reachable choice choice_list cfg).

Lemma reachable_rewards self :
  reachable self ->
  max_reward self = cfg_max_reward cfg /\
  intermediate_reward self = cfg_intermediate_reward cfg /\
  commom_reward self = cfg_commom_reward cfg.
Proof.
  intros H. apply reachable_instance in H as (T & _ & Hself).
  rewrite Hself. repeat split.
Qed.

(** Two instances of one configuration differ in the current state and
    the generator at most, and a reset with a seed the library accepts sets
    both. *)
Lemma reset_seeded_agree self1 self2 seed os1 os2 :
  0 <= seed -> reachable self1 -> reachable self2 ->
  reset self1 (Some seed) os1 = reset self2 (Some seed) os2.
Proof.
  intros Hseed H1 H2.
  apply reachable_instance in H1 as (T1 & HT1 & Hself1).
  apply reachable_instance in H2 as (T2 & HT2 & Hself2).
  rewrite HT1 in HT2. injection HT2 as <-.
  assert (accepted_seed (Some seed) = true) as Hacc by (simpl; lia).
  rewrite !(reset_accepted _ _ _ Hacc).
  rewrite Hself1, Hself2. reflexivity.
Qed.

Hypothesis choice_support : sampler_in_support choice.

(** Repeating action 0 from state 0. *)
Lemma run_left_at_origin k : forall self,
  2 <= cfg_n_states cfg -> reachable self -> current_state self = 0 ->
  snd (run choice self (replicate k 0)) =
    replicate k (ok (mkStep 0 (cfg_intermediate_reward cfg) false false ∅)).
Proof.
  induction k as [|k IH]; intros self Hn Hr Hs; [reflexivity|]. simpl.
  destruct (reachable_constructed _ _ _ _ Hr) as [Hc Hcfg].
  destruct (reachable_rewards _ Hr) as (_ & Hi & _).
  destruct (step_total_left choice choice_support self Hc ltac:(lia) ltac:(lia))
    as (self' & x & Hstep).
  rewrite Hstep.
  pose proof (step_left_at_origin choice choice_support _ _ _ Hc ltac:(lia) Hs Hstep) as Hx.
  destruct (step_ok_inv _ _ _ _ _ Hstep) as (_ & Hrew & Ht & Htr & Hinfo & Hcs & _).
  specialize (IH self' Hn (reach_step _ _ _ _ _ _ _ Hr Hstep) ltac:(congruence)).
  destruct (run choice self' (replicate k 0)) as [self'' rs]. simpl in *.
  rewrite IH. f_equal. f_equal.
  destruct x as [nx rx tx trx ix]. simpl in *. subst.
  unfold reward_spec. rewrite Hs. simpl. now rewrite Hi.
Qed.

Hypothesis choice_list_elem : sampler_in_list choice_list.

Lemma step_never_ends self a :
  2 <= cfg_n_states cfg -> reachable self ->
  no_negative_cell (transition self) = true -> a = 0 \/ a = 1 ->
  never_ends (snd (step choice self a)).
Proof.
  intros Hn Hr Hpos Ha.
  destruct (reachable_constructed _ _ _ _ Hr) as [Hc _].
  pose proof (reachable_in_range choice choice_list choice_support choice_list_elem
                _ _ Hn Hr) as Hs.
  destruct (step_total choice choice_support self a Hc Hs Ha Hpos) as (self' & x & Hstep).
  rewrite Hstep. exists x.
  destruct (step_ok_inv _ _ _ _ _ Hstep) as (_ & _ & Ht & Htr & Hinfo & _). auto.
Qed.

Lemma run_never_ends actions : forall self,
  2 <= cfg_n_states cfg -> reachable self ->
  no_negative_cell (transition self) = true ->
  Forall (fun a => a = 0 \/ a = 1) actions ->
  length (snd (run choice self actions)) = length actions /\
  Forall never_ends (snd (run choice self actions)).
Proof.
  induction actions as [|a rest IH]; intros self Hn Hr Hpos Hall; simpl.
  - split; [reflexivity|constructor].
  - apply Forall_cons in Hall as [Ha Hrest].
    pose proof (step_never_ends self a Hn Hr Hpos Ha) as Hne.
    destruct (step choice self a) as [self1 r] eqn:Hstep.
    assert (transition self1 = transition self) as Htr
      by (apply step_frame in Hstep as (s & g & ->); reflexivity).
    rewrite <- Htr in Hpos.
    destruct (IH self1 Hn (reach_step _ _ _ _ _ _ _ Hr Hstep) Hpos Hrest) as [Hlen Hall'].
    destruct (run choice self1 rest) as [self2 rs]. simpl in *.
    split; [now rewrite Hlen|]. now constructor.
Qed.

End Runs.

Lemma init_unfold {Reward} choice_list (cfg : Config Reward) os :
  __init__ choice_list cfg os =
    let '(s, g) := choice_list (mkGenerator os 0) [0; 1] in
    (_ <~ assert (0 <? cfg_n_states cfg) ;;
     T <~ _get_transition (init_fields cfg s g) ;;
     ok (set_transition (init_fields cfg s g) T)).
Proof. reflexivity. Qed.

(** ** The claims *)

(** C1.  For every configuration with at least two states, the loop of
    [_get_transition] runs to its end and leaves a table of shape
    [n_states x 2 x n_states] whose cells are those of the piecewise
    definition [kernel_spec]: under action 0 a one at [s - 1] (at 0 for state
    0); under action 1 [p_left], [p_stay], [p_right] at [s - 1], [s], [s + 1]
    for an interior state, [p_stay + p_left] and [p_right] at 0 and 1 for
    state 0, [1 - p_right] and [p_right] at [last - 1] and [last] for the
    last state; zero everywhere else.  Here [p_stay] is [1 - p_left - p_right]
    and every value is stored as a binary32 cell.  A table returned by
    [_get_transition] is this table.  The bounds on the two probabilities
    play no part. *)
Theorem transition_is_piecewise {Reward} (cfg : Config Reward) (s0 : Z) (g : Generator) :
  2 <= cfg_n_states cfg ->
  exists T,
    transition_table (init_fields cfg s0 g) = ok T /\
    shape (cfg_n_states cfg) 2 (cfg_n_states cfg) T /\
    (forall s a j,
        0 <= s < cfg_n_states cfg -> 0 <= a < 2 -> 0 <= j < cfg_n_states cfg ->
        entry T s a j =
          Some (kernel_spec (cfg_n_states cfg) (cfg_p_left cfg)
                  (f64_sub (f64_sub one64 (cfg_p_left cfg)) (cfg_p_right cfg))
                  (cfg_p_right cfg) s a j)) /\
    (forall T', _get_transition (init_fields cfg s0 g) = ok T' -> T' = T).
Proof.
  intros Hn.
  destruct (transition_table_spec (init_fields cfg s0 g) Hn eq_refl) as (T & E & S & G).
  exists T. split; [exact E|]. split; [exact S|]. split; [exact G|].
  intros T' H. apply get_transition_ok in H as [H _].
  rewrite E in H. now injection H.
Qed.

Lemma transition_is_piecewise_witness :
  2 <= cfg_n_states default_config /\
  exists T,
    transition_table (init_fields default_config 0 (mkGenerator 0 0)) = ok T /\
    shape 6 2 6 T /\
    (forall s a j,
        0 <= s < 6 -> 0 <= a < 2 -> 0 <= j < 6 ->
        entry T s a j =
          Some (kernel_spec 6 (f64_ratio 1 10)
                  (f64_sub (f64_sub one64 (f64_ratio 1 10)) (f64_ratio 3 10))
                  (f64_ratio 3 10) s a j)) /\
    (forall T', _get_transition (init_fields default_config 0 (mkGenerator 0 0)) = ok T' -> T' = T).
Proof.
  split; [cbn; lia|].
  apply (transition_is_piecewise default_config 0 (mkGenerator 0 0)). cbn; lia.
Defined.

(** C2, at a configuration inside the documented bounds (six states, 0.21 to
    the left, 0.26 to the right).  The three cells of an interior row under
    action 1 sum to 1 - 2^-24 in binary32, in whichever order they are added,
    so the second assertion of [_get_transition] fails and the constructor
    raises [AssertionError]. *)
Theorem skewed_config_fails_assertion
    (choice_list : Generator -> list Z -> Z * Generator) (os : Z) :
  valid_config skewed_config = true /\
  __init__ choice_list skewed_config os = raise AssertionError /\
  f32_add (f32_add skewed_left skewed_stay) skewed_right = S754_finite false 16777215 (-24) /\
  f32_add (f32_add skewed_left skewed_right) skewed_stay = S754_finite false 16777215 (-24) /\
  f32_add (f32_add skewed_stay skewed_right) skewed_left = S754_finite false 16777215 (-24) /\
  f32_eqb (S754_finite false 16777215 (-24)) one32 = false.
Proof.
  split; [vm_compute; reflexivity|]. split.
  - rewrite init_unfold. destruct (choice_list _ _) as [s g].
    rewrite (get_transition_params _ (init_fields skewed_config 0 (mkGenerator 0 0)))
      by reflexivity.
    vm_compute. reflexivity.
  - repeat split; vm_compute; reflexivity.
Qed.



(** C4.  An action other than 0 and 1 makes [step] raise the invalid-action
    error and leaves the environment as it was, the current state and the
    generator included; so do 2 and -1.  With action 0 or 1 that error is not
    raised. *)
Theorem invalid_action_rejected {Reward}
    (choice : Generator -> Z -> list spec_float -> option (Z * Generator))
    (self : RiverSwimEnv Reward) (a : Z) :
  (a <> 0 -> a <> 1 -> step choice self a = (self, raise InvalidAction)) /\
  (a = 0 \/ a = 1 -> snd (step choice self a) <> raise InvalidAction) /\
  step choice self 2 = (self, raise InvalidAction) /\
  step choice self (-1) = (self, raise InvalidAction).
Proof.
  split; [apply step_invalid|]. split; [|split; reflexivity].
  intros Ha. unfold step.
  replace (negb ((a =? 0) || (a =? 1))) with false
    by (destruct Ha as [-> | ->]; reflexivity).
  destruct (getrow _ _ _) as [e|row] eqn:Hrow.
  - apply getrow_error in Hrow as ->. discriminate.
  - destruct (choice _ _ _) as [[i g]|]; discriminate.
Qed.

(** C5 fails.  The default environment whose constructor drew state 1 is
    still in state 1 after [reset(seed=-1)]: the library refuses a negative
    seed before the state is assigned, so [reset] has an error path and on
    it the current state is not 0. *)
Lemma reset_refuses_negative_seed :
  current_state drifted_env = 1 /\
  reset drifted_env (Some (-1)) 0 = (drifted_env, raise Error) /\
  current_state (fst (reset drifted_env (Some (-1)) 0)) <> 0.
Proof. repeat split. vm_compute. discriminate. Qed.

(** C5, amended.  Whatever the current state, [reset] without a seed or with
    a seed that is not negative returns the pair of state 0 and an empty
    dictionary, leaves the current state at 0 and changes the current state
    and the generator only.  With a negative seed it raises the error of the
    library and leaves the environment as it was.  There is no other case. *)
Theorem reset_returns_origin {Reward} (self : RiverSwimEnv Reward)
    (seed : option Z) (os_entropy : Z) :
  (accepted_seed seed = true ->
   snd (reset self seed os_entropy) = ok (0, ∅) /\
   current_state (fst (reset self seed os_entropy)) = 0 /\
   fst (reset self seed os_entropy) =
     set_current_state
       (set_np_random self {| entropy := default os_entropy seed; drawn := 0 |}) 0) /\
  (accepted_seed seed = false ->
   reset self seed os_entropy = (self, raise Error)) /\
  (accepted_seed seed = true <-> seed = None \/ exists z, seed = Some z /\ 0 <= z).
Proof.
  split; [|split].
  - intros H. rewrite (reset_accepted _ _ _ H). repeat split.
  - apply reset_refused.
  - destruct seed as [z|]; simpl.
    + rewrite Z.leb_le. split.
      * intros H. right. now exists z.
      * intros [H|(z' & H & Hz)]; [discriminate|]. now injection H as ->.
    + split; auto.
Qed.

(** C6 fails.  An environment reset with seed 7 and stepped three times holds
    the generator seeded with 7 after 3 draws; [reset] without a seed puts a
    new generator in its place, seeded from the operating system and with no
    draw made, even when that entropy is 7 again. *)
Lemma reset_without_seed_replaces_generator :
  np_random used_env = {| entropy := 7; drawn := 3 |} /\
  np_random (fst (reset used_env None 11)) = {| entropy := 11; drawn := 0 |} /\
  np_random (fst (reset used_env None 11)) <> np_random used_env /\
  np_random (fst (reset used_env None 7)) <> np_random used_env.
Proof.
  rewrite used_env_generator. repeat split; simpl; discriminate.
Qed.

(** C6, amended.  [reset] without a seed or with a seed that is not negative
    replaces the generator by a new one that owes nothing to the generator
    before: seeded with the seed when one is given, and from the entropy of
    the operating system when it is omitted.  A negative seed is refused by
    the library, and then the generator stays. *)
Theorem reset_replaces_generator {Reward} (self : RiverSwimEnv Reward)
    (os_entropy : Z) :
  (forall z, 0 <= z ->
     np_random (fst (reset self (Some z) os_entropy)) = {| entropy := z; drawn := 0 |}) /\
  np_random (fst (reset self None os_entropy)) = {| entropy := os_entropy; drawn := 0 |} /\
  (forall z, z < 0 ->
     reset self (Some z) os_entropy = (self, raise Error)).
Proof.
  split; [|split].
  - intros z Hz. rewrite reset_accepted by (simpl; lia). reflexivity.
  - reflexivity.
  - intros z Hz. apply reset_refused. simpl. lia.
Qed.

(** C7.  Whatever [step] returns carries [terminal] and [truncated] false and
    an empty dictionary.  Under the contract of the sampler, in an
    environment reached from a configuration with at least two states whose
    table has no negative cell, [step] with a valid action does return; and
    after a reset every step of any finite sequence of valid actions does so
    too: one result per action, none of them an error, none of them ending
    the episode.  A reset with a seed the library accepts returns state 0. *)
Theorem episode_never_ends {Reward}
    (choice : Generator -> Z -> list spec_float -> option (Z * Generator))
    (choice_list : Generator -> list Z -> Z * Generator)
    (cfg : Config Reward) (self : RiverSwimEnv Reward)
    (seed : option Z) (os_entropy : Z) (actions : list Z) :
  sampler_in_support choice -> sampler_in_list choice_list ->
  2 <= cfg_n_states cfg ->
  reachable choice choice_list cfg self ->
  no_negative_cell (transition self) = true ->
  Forall (fun a => a = 0 \/ a = 1) actions ->
  (forall (env env' : RiverSwimEnv Reward) a x,
      step choice env a = (env', ok x) ->
      terminal x = false /\ truncated x = false /\ info x = ∅) /\
  (forall a, a = 0 \/ a = 1 -> never_ends (snd (step choice self a))) /\
  (accepted_seed seed = true -> snd (reset self seed os_entropy) = ok (0, ∅)) /\
  length (snd (run choice (fst (reset self seed os_entropy)) actions)) = length actions /\
  Forall never_ends (snd (run choice (fst (reset self seed os_entropy)) actions)).
Proof.
  intros Hsup Hlist Hn Hr Hpos Hall. split; [|split; [|split]].
  - intros env env' a x Hstep.
    destruct (step_ok_inv _ _ _ _ _ Hstep) as (_ & _ & Ht & Htr & Hinfo & _). auto.
  - intros a Ha. now apply (step_never_ends choice choice_list cfg).
  - intros Hseed. now rewrite (reset_accepted _ _ _ Hseed).
  - apply (run_never_ends choice choice_list cfg); try assumption.
    + now apply reach_reset.
    + destruct (reset_frame self seed os_entropy) as (s & g & ->). exact Hpos.
Qed.

Lemma episode_never_ends_witness :
  sampler_in_support choice_first /\ sampler_in_list choice_head /\
  2 <= cfg_n_states default_config /\
  reachable choice_first choice_head default_config used_env /\
  no_negative_cell (transition used_env) = true /\
  Forall (fun a => a = 0 \/ a = 1) [1; 1; 0; 1] /\
  (forall a, a = 0 \/ a = 1 -> never_ends (snd (step choice_first used_env a))) /\
  snd (reset used_env (Some 3) 0) = ok (0, ∅) /\
  length (snd (run choice_first (fst (reset used_env (Some 3) 0)) [1; 1; 0; 1])) = 4%nat /\
  Forall never_ends (snd (run choice_first (fst (reset used_env (Some 3) 0)) [1; 1; 0; 1])).
Proof.
  assert (2 <= cfg_n_states default_config) as Hn by (vm_compute; discriminate).
  assert (Forall (fun a => a = 0 \/ a = 1) [1; 1; 0; 1]) as Hall
    by (repeat constructor; auto).
  split; [exact choice_first_in_support|]. split; [exact choice_head_in_list|].
  split; [exact Hn|]. split; [exact used_env_reachable|].
  split; [exact used_env_no_negative_cell|]. split; [exact Hall|].
  destruct (episode_never_ends choice_first choice_head default_config used_env (Some 3) 0
              [1; 1; 0; 1] choice_first_in_support choice_head_in_list Hn
              used_env_reachable used_env_no_negative_cell Hall)
    as (_ & Hstep & Hreset & Hlen & Hrun).
  split; [exact Hstep|]. split; [exact (Hreset eq_refl)|]. split; [exact Hlen|exact Hrun].
Defined.

(** C8.  Under the contract of the sampler, an environment of the default
    configuration returns state 0 from [reset(seed=0)], and each of any
    number of calls [step(0)] that follow returns state 0 with reward 5, both
    flags false and an empty dictionary: the row of state 0 under action 0
    has its only non-zero cell at 0. *)
Theorem swim_left_stays_at_origin
    (choice : Generator -> Z -> list spec_float -> option (Z * Generator))
    (choice_list : Generator -> list Z -> Z * Generator)
    (self : RiverSwimEnv Z) (os_entropy : Z) (k : nat) :
  sampler_in_support choice ->
  reachable choice choice_list default_config self ->
  snd (reset self (Some 0) os_entropy) = ok (0, ∅) /\
  snd (run choice (fst (reset self (Some 0) os_entropy)) (replicate k 0)) =
    replicate k (ok (mkStep 0 5 false false ∅)).
Proof.
  intros Hsup Hr. split; [reflexivity|].
  apply (run_left_at_origin choice choice_list default_config Hsup k).
  - vm_compute. discriminate.
  - now apply reach_reset.
  - reflexivity.
Qed.

Lemma swim_left_stays_at_origin_witness :
  sampler_in_support choice_first /\
  reachable choice_first choice_head default_config used_env /\
  snd (reset used_env (Some 0) 9) = ok (0, ∅) /\
  snd (run choice_first (fst (reset used_env (Some 0) 9)) (replicate 5 0)) =
    replicate 5 (ok (mkStep 0 5 false false ∅)).
Proof.
  split; [exact choice_first_in_support|]. split; [exact used_env_reachable|].
  exact (swim_left_stays_at_origin choice_first choice_head used_env 9 5
           choice_first_in_support used_env_reachable).
Defined.



(** C10.  Two environments reached from the same configuration, each reset
    with the same integer seed, which the library accepts when it is not
    negative, return the pair of state 0 and an empty dictionary from
    [reset], are equal afterwards, and then return the same sequence of
    results, errors included, for the same sequence of actions, whatever the
    two were doing before and whatever entropy the operating system holds. *)
Theorem seeded_runs_agree {Reward}
    (choice : Generator -> Z -> list spec_float -> option (Z * Generator))
    (choice_list : Generator -> list Z -> Z * Generator)
    (cfg : Config Reward) (self1 self2 : RiverSwimEnv Reward)
    (seed os1 os2 : Z) (actions : list Z) :
  0 <= seed ->
  reachable choice choice_list cfg self1 ->
  reachable choice choice_list cfg self2 ->
  snd (reset self1 (Some seed) os1) = ok (0, ∅) /\
  snd (reset self2 (Some seed) os2) = ok (0, ∅) /\
  fst (reset self1 (Some seed) os1) = fst (reset self2 (Some seed) os2) /\
  snd (run choice (fst (reset self1 (Some seed) os1)) actions) =
    snd (run choice (fst (reset self2 (Some seed) os2)) actions).
Proof.
  intros Hseed H1 H2.
  rewrite (reset_seeded_agree choice choice_list cfg self1 self2 seed os1 os2 Hseed H1 H2).
  rewrite reset_accepted by (simpl; lia). repeat split.
Qed.

Lemma seeded_runs_agree_witness :
  0 <= 42 /\
  reachable choice_first choice_head default_config default_env /\
  reachable choice_first choice_head default_config used_env /\
  np_random default_env <> np_random used_env /\
  snd (reset default_env (Some 42) 1) = snd (reset used_env (Some 42) 2) /\
  snd (run choice_first (fst (reset default_env (Some 42) 1)) [1; 0; 1]) =
    snd (run choice_first (fst (reset used_env (Some 42) 2)) [1; 0; 1]).
Proof.
  assert (0 <= 42) as Hseed by lia.
  split; [exact Hseed|].
  split; [exact default_env_reachable|]. split; [exact used_env_reachable|].
  split; [vm_compute; discriminate|].
  destruct (seeded_runs_agree choice_first choice_head default_config default_env used_env
              42 1 2 [1; 0; 1] Hseed default_env_reachable used_env_reachable)
    as (Hr1 & Hr2 & _ & Hrun).
  split; [now rewrite Hr1, Hr2|exact Hrun].
Defined.

(** ** Further properties of [step], [reset] and the constructor *)

Lemma step_keeps {Reward} choice (self self' : RiverSwimEnv Reward) action r :
  step choice self action = (self', r) ->
  n_states self' = n_states self /\
  max_reward self' = max_reward self /\
  intermediate_reward self' = intermediate_reward self /\
  commom_reward self' = commom_reward self /\
  transition self' = transition self /\
  (constructed self -> constructed self').
Proof.
  intros H. apply step_frame in H as (s & g & ->).
  do 5 (split; [reflexivity|]).
  intros [Hna HT]. split; [exact Hna|].
  rewrite (get_transition_params _ self) by reflexivity. exact HT.
Qed.

Lemma run_frame {Reward} choice actions : forall self : RiverSwimEnv Reward,
  exists s g, fst (run choice self actions) = set_current_state (set_np_random self g) s.
Proof.
  induction actions as [|a rest IH]; intros self; simpl.
  - eexists _, _. symmetry. apply env_eta.
  - destruct (step choice self a) as [self1 r] eqn:Hstep.
    apply step_frame in Hstep as (s1 & g1 & ->).
    destruct (IH (set_current_state (set_np_random self g1) s1)) as (s & g & Hrun).
    destruct (run choice _ rest) as [self2 rs]. simpl in *. subst self2.
    now exists s, g.
Qed.

(** Action 0 has one possible outcome. *)
Lemma step_left_next {Reward}
    (choice : Generator -> Z -> list spec_float -> option (Z * Generator))
    (self self' : RiverSwimEnv Reward) (x : StepResult Reward) :
  sampler_in_support choice ->
  constructed self -> 2 <= n_states self ->
  0 <= current_state self < n_states self ->
  step choice self 0 = (self', ok x) ->
  next_state x = Z.max 0 (current_state self - 1).
Proof.
  intros Hsup Hc Hn Hs Hstep.
  destruct (step_kernel choice Hsup _ _ _ _ Hc Hn Hs Hstep) as [Hx Hz].
  unfold kernel_spec in Hz. simpl in Hz. revert Hz.
  split_tests; intros Hz; try lia; discriminate.
Qed.

(** X1.  Swimming left always succeeds: in any state of a constructed
    environment with at least two states, action 0 moves one state to the
    left, or stays in state 0, whatever the generator holds.  The reward is
    the intermediate reward in state 0 and the common reward elsewhere. *)
Theorem swim_left_is_certain {Reward}
    (choice : Generator -> Z -> list spec_float -> option (Z * Generator))
    (self : RiverSwimEnv Reward) :
  sampler_in_support choice ->
  constructed self -> 2 <= n_states self ->
  0 <= current_state self < n_states self ->
  exists self' x,
    step choice self 0 = (self', ok x) /\
    next_state x = Z.max 0 (current_state self - 1) /\
    reward x = (if current_state self =? 0 then intermediate_reward self
                else commom_reward self) /\
    terminal x = false /\ truncated x = false /\
    current_state self' = next_state x.
Proof.
  intros Hsup Hc Hn Hs.
  destruct (step_total_left choice Hsup self Hc Hn Hs) as (self' & x & Hstep).
  exists self', x. split; [assumption|].
  pose proof (step_left_next choice _ _ _ Hsup Hc Hn Hs Hstep) as Hnext.
  destruct (step_ok_inv _ _ _ _ _ Hstep) as (_ & Hr & Ht & Htr & _ & Hcs & _).
  split; [assumption|]. split; [|auto].
  rewrite Hr, Hnext. unfold reward_spec. split_tests; reflexivity.
Qed.

Lemma swim_left_is_certain_witness :
  sampler_in_support choice_first /\ constructed default_env /\
  2 <= n_states default_env /\
  0 <= current_state default_env < n_states default_env /\
  exists self' x,
    step choice_first default_env 0 = (self', ok x) /\
    next_state x = Z.max 0 (current_state default_env - 1).
Proof.
  assert (2 <= n_states default_env) as Hn by (vm_compute; discriminate).
  assert (0 <= current_state default_env < n_states default_env) as Hs
    by (vm_compute; split; [discriminate|reflexivity]).
  split; [exact choice_first_in_support|]. split; [exact default_env_constructed|].
  split; [exact Hn|]. split; [exact Hs|].
  destruct (swim_left_is_certain choice_first default_env choice_first_in_support
              default_env_constructed Hn Hs) as (self' & x & Hstep & Hnext & _).
  exists self', x. auto.
Defined.

(** X2.  Swimming left [k] times from state [s] ends in state [max 0 (s - k)]:
    the [i]-th step returns state [max 0 (s - i - 1)], with the common reward
    while the swimmer is still moving and the intermediate reward once it
    sits in state 0; no step ends the episode. *)
Theorem swim_left_k_times {Reward}
    (choice : Generator -> Z -> list spec_float -> option (Z * Generator))
    (k : nat) (self : RiverSwimEnv Reward) :
  sampler_in_support choice ->
  constructed self -> 2 <= n_states self ->
  0 <= current_state self < n_states self ->
  current_state (fst (run choice self (replicate k 0))) =
    Z.max 0 (current_state self - Z.of_nat k) /\
  snd (run choice self (replicate k 0)) =
    List.map
      (fun i : nat =>
         ok (mkStep (Z.max 0 (current_state self - Z.of_nat i - 1))
               (if current_state self - Z.of_nat i <=? 0
                then intermediate_reward self else commom_reward self)
               false false ∅))
      (seq 0 k).
Proof.
  intros Hsup. revert self.
  induction k as [|k IH]; intros self Hc Hn Hs.
  - simpl. split; [lia|reflexivity].
  - destruct (step_total_left choice Hsup self Hc Hn Hs) as (self' & x & Hstep).
    pose proof (step_left_next choice _ _ _ Hsup Hc Hn Hs Hstep) as Hnext.
    destruct (step_ok_inv _ _ _ _ _ Hstep) as (_ & Hr' & Ht & Htr & Hinfo & Hcs & _).
    assert (reward x = (if current_state self =? 0 then intermediate_reward self
                        else commom_reward self)) as Hr.
    { rewrite Hr', Hnext. unfold reward_spec. split_tests; reflexivity. }
    clear Hr'.
    destruct (step_keeps _ _ _ _ _ Hstep) as (Hn' & _ & Hi' & Hc' & _ & Hcon).
    destruct (IH self' (Hcon Hc) ltac:(lia) ltac:(lia)) as [IHs IHr].
    simpl. rewrite Hstep.
    destruct (run choice self' (replicate k 0)) as [self'' rs]. simpl in *.
    split; [lia|].
    f_equal.
    + destruct x as [nx rx tx trx ix]. simpl in *. subst.
      change (Z.of_nat 0) with 0. rewrite Z.sub_0_r.
      replace (current_state self <=? 0) with (current_state self =? 0); [reflexivity|].
      destruct (Z.eqb_spec (current_state self) 0);
        destruct (Z.leb_spec (current_state self) 0); try reflexivity; lia.
    + rewrite IHr, <- List.seq_shift, List.map_map.
      apply List.map_ext. intros i. rewrite Hi', Hc'.
      replace (0 `max` (current_state self' - Z.of_nat i - 1))
        with (0 `max` (current_state self - Z.of_nat (S i) - 1)) by lia.
      replace (current_state self' - Z.of_nat i <=? 0)
        with (current_state self - Z.of_nat (S i) <=? 0); [reflexivity|].
      destruct (Z.leb_spec (current_state self' - Z.of_nat i) 0);
        destruct (Z.leb_spec (current_state self - Z.of_nat (S i)) 0);
        try reflexivity; lia.
Qed.

Lemma swim_left_k_times_witness :
  sampler_in_support choice_first /\ constructed default_env /\
  2 <= n_states default_env /\
  0 <= current_state default_env < n_states default_env /\
  current_state (fst (run choice_first default_env (replicate 4 0))) =
    Z.max 0 (current_state default_env - 4).
Proof.
  assert (2 <= n_states default_env) as Hn by (vm_compute; discriminate).
  assert (0 <= current_state default_env < n_states default_env) as Hs
    by (vm_compute; split; [discriminate|reflexivity]).
  split; [exact choice_first_in_support|]. split; [exact default_env_constructed|].
  split; [exact Hn|]. split; [exact Hs|].
  exact (proj1 (swim_left_k_times choice_first 4 default_env choice_first_in_support
                  default_env_constructed Hn Hs)).
Defined.

Lemma step_rejected {Reward} choice (self : RiverSwimEnv Reward) a :
  rejected (snd (step choice self a)) = negb (valid_action a) /\
  (valid_action a = false -> fst (step choice self a) = self).
Proof.
  unfold step, valid_action.
  destruct ((a =? 0) || (a =? 1)); simpl; [|auto]. split; [|discriminate].
  destruct (getrow _ _ _) as [e|row] eqn:Hrow; simpl.
  - now apply getrow_error in Hrow as ->.
  - now destruct (choice _ _ _) as [[i g]|].
Qed.

(** X3.  A rejected action leaves no trace.  In a sequence of calls of
    [step], the calls with an action other than 0 and 1 are exactly those
    that return the invalid-action error; dropping them changes neither the
    environment at the end, generator included, nor the results of the other
    calls. *)
Theorem rejected_actions_leave_no_trace {Reward}
    (choice : Generator -> Z -> list spec_float -> option (Z * Generator))
    (actions : list Z) (self : RiverSwimEnv Reward) :
  fst (run choice self actions) =
    fst (run choice self (List.filter valid_action actions)) /\
  List.filter (fun r => negb (rejected r)) (snd (run choice self actions)) =
    snd (run choice self (List.filter valid_action actions)) /\
  List.map rejected (snd (run choice self actions)) =
    List.map (fun a => negb (valid_action a)) actions.
Proof.
  revert self. induction actions as [|a rest IH]; intros self; [repeat split|].
  destruct (step_rejected choice self a) as [Hrej Hfst].
  simpl. destruct (step choice self a) as [self1 r] eqn:Hstep. simpl in *.
  destruct (valid_action a) eqn:Ha.
  - simpl. rewrite Hstep. destruct (IH self1) as (IH1 & IH2 & IH3).
    destruct (run choice self1 rest) as [self2 rs].
    destruct (run choice self1 (List.filter valid_action rest)) as [self3 rs'].
    simpl in *. rewrite Hrej. simpl. subst. repeat split; congruence.
  - rewrite (Hfst eq_refl) in *. destruct (IH self) as (IH1 & IH2 & IH3).
    destruct (run choice self rest) as [self2 rs]. simpl in *.
    rewrite Hrej. simpl. repeat split; congruence.
Qed.

(** X4.  [reset] forgets the episode: called without a seed or with a seed
    that is not negative after any sequence of steps, valid or not, it
    returns the same pair and leaves the same environment as a reset of the
    environment the sequence started from. *)
Theorem reset_forgets_the_episode {Reward}
    (choice : Generator -> Z -> list spec_float -> option (Z * Generator))
    (self : RiverSwimEnv Reward) (actions : list Z)
    (seed : option Z) (os_entropy : Z) :
  accepted_seed seed = true ->
  reset (fst (run choice self actions)) seed os_entropy = reset self seed os_entropy.
Proof.
  intros Hseed. rewrite !(reset_accepted _ _ _ Hseed).
  destruct (run_frame choice actions self) as (s & g & ->). reflexivity.
Qed.

Lemma reset_forgets_the_episode_witness :
  accepted_seed (Some 7) = true /\
  reset (fst (run choice_first default_env [1; 2; 0])) (Some 7) 0 =
    reset default_env (Some 7) 0.
Proof.
  split; [reflexivity|].
  exact (reset_forgets_the_episode choice_first default_env [1; 2; 0] (Some 7) 0 eq_refl).
Defined.

(** X5.  A current state outside the table makes [step] raise [IndexError]
    for either action, and leaves the environment as it was.  The
    constructor can leave such a state: it draws the first state from 0 and
    1 even when the river has one state only. *)
Theorem step_outside_the_table {Reward}
    (choice : Generator -> Z -> list spec_float -> option (Z * Generator))
    (self : RiverSwimEnv Reward) (a : Z) :
  constructed self -> a = 0 \/ a = 1 ->
  current_state self < - n_states self \/ n_states self <= current_state self ->
  step choice self a = (self, raise IndexError).
Proof.
  intros [Hna HT] Ha Hs.
  apply get_transition_ok in HT as [HT _].
  apply transition_table_shape in HT as [Hlen _].
  unfold step.
  replace (negb ((a =? 0) || (a =? 1))) with false
    by (destruct Ha as [-> | ->]; reflexivity).
  unfold getrow, norm_index. rewrite Hlen.
  destruct (Z.leb_spec 0 (current_state self));
    destruct (Z.ltb_spec (current_state self) (n_states self));
    destruct (Z.leb_spec (- n_states self) (current_state self));
    destruct (Z.ltb_spec (current_state self) 0); try lia; reflexivity.
Qed.

Lemma single_env_init : __init__ choice_last single_config 0 = ok single_env.
Proof. vm_compute. reflexivity. Qed.

Lemma single_env_constructed : constructed single_env.
Proof. split; vm_compute; reflexivity. Qed.

Lemma step_outside_the_table_witness :
  __init__ choice_last single_config 0 = ok single_env /\
  constructed single_env /\ (1 = 0 \/ 1 = 1) /\
  (current_state single_env < - n_states single_env \/
   n_states single_env <= current_state single_env) /\
  step choice_first single_env 1 = (single_env, raise IndexError).
Proof.
  assert (current_state single_env < - n_states single_env \/
          n_states single_env <= current_state single_env) as Hs
    by (right; vm_compute; discriminate).
  split; [exact single_env_init|]. split; [exact single_env_constructed|].
  split; [right; reflexivity|]. split; [exact Hs|].
  exact (step_outside_the_table choice_first single_env 1 single_env_constructed
           (or_intror eq_refl) Hs).
Defined.

(** X6.  The table is built once.  Every environment reached through the
    constructor, [reset] and [step] holds the table [_get_transition]
    returned for its configuration, and differs from the environment the
    constructor left in the current state and the generator at most. *)
Theorem table_is_never_rebuilt {Reward}
    (choice : Generator -> Z -> list spec_float -> option (Z * Generator))
    (choice_list : Generator -> list Z -> Z * Generator)
    (cfg : Config Reward) (self : RiverSwimEnv Reward) :
  reachable choice choice_list cfg self ->
  _get_transition (init_fields cfg 0 (mkGenerator 0 0)) = ok (transition self) /\
  self = set_transition (init_fields cfg (current_state self) (np_random self))
           (transition self).
Proof.
  intros H. apply reachable_instance in H as (T & HT & Hself).
  assert (transition self = T) as -> by (rewrite Hself; reflexivity).
  split; assumption.
Qed.

Lemma table_is_never_rebuilt_witness :
  reachable choice_first choice_head default_config used_env /\
  _get_transition (init_fields default_config 0 (mkGenerator 0 0)) =
    ok (transition used_env) /\
  used_env =
    set_transition (init_fields default_config (current_state used_env) (np_random used_env))
      (transition used_env).
Proof.
  split; [exact used_env_reachable|].
  exact (table_is_never_rebuilt choice_first choice_head default_config used_env
           used_env_reachable).
Defined.

(** X7.  When the constructor returns, the environment starts in state 0 or
    state 1, has two actions and at least one state,
    stays with probability [1 - p_left - p_right], holds a table that passed
    both assertions, and keeps the generator that made the first draw. *)
Theorem constructor_starts_at_0_or_1 {Reward}
    (choice_list : Generator -> list Z -> Z * Generator)
    (cfg : Config Reward) (os_entropy : Z) (self : RiverSwimEnv Reward) :
  sampler_in_list choice_list ->
  __init__ choice_list cfg os_entropy = ok self ->
  (current_state self = 0 \/ current_state self = 1) /\
  n_actions self = 2 /\
  n_states self = cfg_n_states cfg /\ 0 < n_states self /\
  p_stay self = f64_sub (f64_sub one64 (cfg_p_left cfg)) (cfg_p_right cfg) /\
  constructed self /\
  np_random self = snd (choice_list (mkGenerator os_entropy 0) [0; 1]).
Proof.
  intros Hlist Hinit.
  pose proof (Hlist (mkGenerator os_entropy 0) [0; 1]) as Hin.
  apply init_inv in Hinit as (Hn & T & HT & ->). simpl.
  assert (fst (choice_list (mkGenerator os_entropy 0) [0; 1]) ∈ [0; 1]) as Hs
    by (apply Hin; discriminate).
  apply list_elem_of_In in Hs. simpl in Hs.
  split; [lia|]. split; [reflexivity|]. split; [reflexivity|]. split; [assumption|].
  split; [reflexivity|]. split; [|reflexivity]. split; [reflexivity|].
  simpl. rewrite <- HT. now apply get_transition_params.
Qed.

Lemma choice_last_in_list : sampler_in_list choice_last.
Proof.
  intros g l Hl. simpl. destruct (last l) as [x|] eqn:Hx.
  - simpl. now apply last_Some_elem_of.
  - apply last_None in Hx. contradiction.
Qed.

Lemma constructor_starts_at_0_or_1_witness :
  sampler_in_list choice_last /\
  __init__ choice_last single_config 0 = ok single_env /\
  (current_state single_env = 0 \/ current_state single_env = 1) /\
  constructed single_env.
Proof.
  split; [exact choice_last_in_list|]. split; [exact single_env_init|].
  destruct (constructor_starts_at_0_or_1 choice_last single_config 0 single_env
              choice_last_in_list single_env_init) as (Hs & _ & _ & _ & _ & Hc & _).
  split; assumption.
Defined.

Lemma row_sum_singleton x : f32_eqb (row_sum [x]) one32 = f32_eqb x one32.
Proof. destruct x as [[]|[]| |s m e]; reflexivity. Qed.

Lemma single_state_table {Reward} (self : RiverSwimEnv Reward) :
  n_states self = 1 -> n_actions self = 2 ->
  transition_table self =
    ok [[[one32]; [f32_of_f64 (f64_sub one64 (p_right self))]]].
Proof.
  intros Hn Ha. unfold transition_table. rewrite Hn, Ha. simpl.
  unfold transition_body. rewrite Hn. reflexivity.
Qed.

(** X8.  A river of one state.  The last assignment of the loop goes through
    index -1, which is the only cell of the row: it overwrites what the loop
    has just stored there, so the cell under action 1 ends up holding
    [1 - p_right].  [_get_transition] returns this table when that value
    rounds to one and raises [AssertionError] otherwise. *)
Theorem single_state_river {Reward} (self : RiverSwimEnv Reward) :
  n_states self = 1 -> n_actions self = 2 ->
  transition_table self =
    ok [[[one32]; [f32_of_f64 (f64_sub one64 (p_right self))]]] /\
  _get_transition self =
    if f32_eqb (f32_of_f64 (f64_sub one64 (p_right self))) one32
    then ok [[[one32]; [f32_of_f64 (f64_sub one64 (p_right self))]]]
    else raise AssertionError.
Proof.
  intros Hn Ha.
  pose proof (single_state_table self Hn Ha) as Htab.
  split; [exact Htab|].
  unfold _get_transition. rewrite Htab. simpl.
  rewrite row_sum_singleton.
  destruct (f32_eqb (f32_of_f64 _) one32); reflexivity.
Qed.

Lemma single_state_river_witness :
  n_states single_env = 1 /\ n_actions single_env = 2 /\
  transition_table single_env =
    ok [[[one32]; [f32_of_f64 (f64_sub one64 (p_right single_env))]]].
Proof.
  split; [reflexivity|]. split; [reflexivity|].
  exact (proj1 (single_state_river single_env eq_refl eq_refl)).
Defined.

Lemma sum_axis_cons plane T a :
  sum_axis (plane :: T) a =
    (a' <~ norm_index (length plane) a ;;
     row <~ lookup_or_raise plane a' ;;
     sums <~ sum_axis T a ;;
     ok (row_sum row :: sums)).
Proof. reflexivity. Qed.

Lemma sum_axis_shape n m a : forall T,
  shape n 2 m T -> a = 0 \/ a = 1 -> exists sums, sum_axis T a = ok sums.
Proof.
  intros T [_ HT] Ha. induction HT as [|plane T [Hlen _] _ [sums IH]].
  - now exists [].
  - destruct (lookup_lt_is_Some_2 plane (Z.to_nat a)) as [row Hrow]; [lia|].
    exists (row_sum row :: sums). rewrite sum_axis_cons.
    rewrite norm_index_nonneg by lia. simpl.
    rewrite (lookup_or_raise_Some _ _ _ Hrow). simpl.
    rewrite IH. reflexivity.
Qed.

(** X9.  The builder never leaves the table.  Every index it writes through
    lies inside the array, for every size, [i - 1] at the first state and
    [i + 1] before the last included: [_get_transition] raises [ValueError]
    for a negative number of states, and otherwise either returns a table of
    shape [n_states x 2 x n_states] or raises [AssertionError]; it never
    raises [IndexError]. *)
Theorem builder_stays_inside_the_table {Reward} (self : RiverSwimEnv Reward) :
  n_actions self = 2 ->
  (n_states self < 0 -> _get_transition self = raise ValueError) /\
  (0 <= n_states self ->
   (exists T, _get_transition self = ok T /\
              shape (n_states self) 2 (n_states self) T) \/
   _get_transition self = raise AssertionError).
Proof.
  intros Ha. split.
  - intros Hn. unfold _get_transition, transition_table, zeros.
    destruct (Z.ltb_spec (n_states self) 0); [reflexivity|lia].
  - intros Hn.
    assert (exists T, transition_table self = ok T) as [T HT].
    { destruct (Z.eq_dec (n_states self) 0) as [H0|H0].
      { exists []. unfold transition_table. rewrite H0, Ha. reflexivity. }
      destruct (Z.eq_dec (n_states self) 1) as [H1|H1].
      { eexists. now apply single_state_table. }
      destruct (transition_table_spec self ltac:(lia) Ha) as (T & HT & _). eauto. }
    pose proof (transition_table_shape self T HT) as HS. rewrite Ha in HS.
    destruct (sum_axis_shape _ _ 0 T HS (or_introl eq_refl)) as [s0 Hs0].
    destruct (sum_axis_shape _ _ 1 T HS (or_intror eq_refl)) as [s1 Hs1].
    unfold _get_transition. rewrite HT. simpl. rewrite Hs0. simpl.
    destruct (all_eq_one s0); simpl; [|now right].
    rewrite Hs1. simpl.
    destruct (all_eq_one s1); simpl; [|now right].
    left. exists T. auto.
Qed.

Lemma builder_stays_inside_the_table_witness :
  n_actions single_env = 2 /\
  (0 <= n_states single_env ->
   (exists T, _get_transition single_env = ok T /\
              shape (n_states single_env) 2 (n_states single_env) T) \/
   _get_transition single_env = raise AssertionError).
Proof.
  split; [reflexivity|].
  exact (proj2 (builder_stays_inside_the_table single_env eq_refl)).
Defined.

Lemma run_bounded {Reward} choice (Hsup : sampler_in_support choice) actions :
  forall (self : RiverSwimEnv Reward) (b : Z) (i : nat) (x : StepResult Reward),
    constructed self -> 2 <= n_states self ->
    0 <= current_state self < n_states self -> current_state self <= b ->
    snd (run choice self actions) !! i = Some (ok x) ->
    next_state x <= b + Z.of_nat i + 1 /\
    (b + Z.of_nat i < n_states self - 1 ->
     reward x = commom_reward self \/ reward x = intermediate_reward self).
Proof.
  induction actions as [|a rest IH]; intros self b i x Hc Hn Hs Hb Hi; [discriminate|].
  simpl in Hi. destruct (step choice self a) as [self1 r] eqn:Hstep.
  destruct (step_keeps _ _ _ _ _ Hstep) as (Hn1 & _ & Hi1 & Hc1 & _ & Hcon).
  specialize (IH self1).
  destruct (run choice self1 rest) as [self2 rs]. simpl in *.
  destruct i as [|i]; simpl in Hi.
  - injection Hi as ->.
    destruct (step_local choice Hsup _ _ _ _ Hc Hn Hs Hstep) as [Hx Hloc].
    destruct (step_ok_inv _ _ _ _ _ Hstep) as (_ & Hr & _).
    split; [lia|]. intros Hlast. rewrite Hr. unfold reward_spec.
    split_tests; auto.
  - assert (0 <= current_state self1 < n_states self1 /\ current_state self1 <= b + 1)
      as [Hs1 Hb1].
    { destruct r as [e|x1].
      - apply step_error_unchanged in Hstep as ->. lia.
      - destruct (step_local choice Hsup _ _ _ _ Hc Hn Hs Hstep) as [Hx Hloc].
        destruct (step_ok_inv _ _ _ _ _ Hstep) as (_ & _ & _ & _ & _ & Hcs & _). lia. }
    destruct (IH (b + 1) i x (Hcon Hc) ltac:(lia) Hs1 Hb1 Hi) as [Hnext Hrew].
    rewrite Hn1, Hi1, Hc1 in Hrew. split; [lia|]. intros Hlast. apply Hrew. lia.
Qed.

(** X10.  The maximal reward takes a swim.  From state 0 the [i]-th call of
    [step] (counting from 0, rejected calls included) returns a state not
    beyond [i + 1]; so none of the first [n_states - 1] calls can stay in the
    last state, and each of them that returns pays the common or the
    intermediate reward. *)
Theorem maximal_reward_takes_a_swim {Reward}
    (choice : Generator -> Z -> list spec_float -> option (Z * Generator))
    (self : RiverSwimEnv Reward) (actions : list Z) (i : nat)
    (x : StepResult Reward) :
  sampler_in_support choice ->
  constructed self -> 2 <= n_states self -> current_state self = 0 ->
  snd (run choice self actions) !! i = Some (ok x) ->
  next_state x <= Z.of_nat i + 1 /\
  (Z.of_nat i < n_states self - 1 ->
   reward x = commom_reward self \/ reward x = intermediate_reward self).
Proof.
  intros Hsup Hc Hn Hs Hi.
  apply (run_bounded choice Hsup actions self 0 i x); try assumption; lia.
Qed.

Lemma maximal_reward_takes_a_swim_witness :
  sampler_in_support choice_first /\ constructed default_env /\
  2 <= n_states default_env /\ current_state default_env = 0 /\
  snd (run choice_first default_env [1; 1; 1]) !! 2%nat =
    Some (ok (mkStep 0 0 false false ∅)) /\
  0 <= Z.of_nat 2 + 1.
Proof.
  assert (2 <= n_states default_env) as Hn by (vm_compute; discriminate).
  assert (snd (run choice_first default_env [1; 1; 1]) !! 2%nat =
            Some (ok (mkStep 0 0 false false ∅))) as Hi by reflexivity.
  split; [exact choice_first_in_support|]. split; [exact default_env_constructed|].
  split; [exact Hn|]. split; [reflexivity|]. split; [exact Hi|].
  exact (proj1 (maximal_reward_takes_a_swim choice_first default_env [1; 1; 1] 2
                  (mkStep 0 0 false false ∅) choice_first_in_support
                  default_env_constructed Hn eq_refl Hi)).
Defined.

(** ** [render] *)

Lemma string_app_assoc (a b c : string) : (a +:+ b) +:+ c = a +:+ b +:+ c.
Proof.
  induction a as [|x a IH]; [reflexivity|].
  change (String x ((a +:+ b) +:+ c) = String x (a +:+ b +:+ c)). now rewrite IH.
Qed.

Lemma string_app_nil_r (a : string) : a +:+ "" = a.
Proof.
  induction a as [|x a IH]; [reflexivity|].
  change (String x (a +:+ "") = String x a). now rewrite IH.
Qed.

Lemma render_loop_join {Reward} (self : RiverSwimEnv Reward) (len : nat) :
  forall (k : Z) (acc : string),
    k + Z.of_nat len = n_states self ->
    render_loop self acc (seqZ k (Z.of_nat len)) =
      acc +:+ String.concat " - " (List.map (box (current_state self)) (seqZ k (Z.of_nat len))).
Proof.
  induction len as [|len IH]; intros k acc Hk.
  - simpl. now rewrite string_app_nil_r.
  - rewrite seqZ_cons by lia.
    replace (Z.pred (Z.of_nat (S len))) with (Z.of_nat len) by lia.
    cbn [render_loop List.map]. rewrite IH by lia.
    unfold render_body, box at 2.
    destruct len as [|len].
    + destruct (Z.ltb_spec k (n_states self - 1)); [lia|].
      simpl. rewrite string_app_nil_r.
      now destruct (k =? current_state self).
    + destruct (Z.ltb_spec k (n_states self - 1)); [|lia].
      rewrite (seqZ_cons (Z.succ k)) by lia. cbn [List.map String.concat].
      destruct (k =? current_state self); now rewrite !string_app_assoc.
Qed.

Lemma boxes_off s (len : nat) : forall k,
  s < k \/ k + Z.of_nat len <= s ->
  List.map (box s) (seqZ k (Z.of_nat len)) = replicate len "[ ]".
Proof.
  induction len as [|len IH]; intros k Hk; [reflexivity|].
  rewrite seqZ_cons by lia.
  replace (Z.pred (Z.of_nat (S len))) with (Z.of_nat len) by lia.
  simpl. rewrite IH by lia. unfold box.
  destruct (Z.eqb_spec k s); [lia|reflexivity].
Qed.

(** X11.  [render] draws one box per state, joined by [" - "] with no
    separator after the last box, and marks the box of the current state and
    no other; when the current state lies outside the river no box is
    marked.  A line is printed in mode ["ansi"] only: in mode ["human"] and
    without a mode nothing is printed. *)
Theorem render_marks_the_current_state {Reward} (self : RiverSwimEnv Reward) :
  (0 <= current_state self < n_states self ->
   render (Some "ansi") self =
     Some ("RiverSwim State: " +:+
           String.concat " - "
             (replicate (Z.to_nat (current_state self)) "[ ]" ++
              "[X]" :: replicate (Z.to_nat (n_states self - current_state self - 1)) "[ ]"))) /\
  (current_state self < 0 \/ n_states self <= current_state self ->
   render (Some "ansi") self =
     Some ("RiverSwim State: " +:+
           String.concat " - " (replicate (Z.to_nat (n_states self)) "[ ]"))) /\
  render (Some "human") self = None /\
  render None self = None.
Proof.
  assert (forall n, 0 <= n -> n = n_states self ->
            render (Some "ansi") self =
              Some ("RiverSwim State: " +:+
                    String.concat " - "
                      (List.map (box (current_state self)) (seqZ 0 n)))) as Hjoin.
  { intros n Hn ->. unfold render. simpl. do 2 f_equal.
    rewrite <- (Z2Nat.id (n_states self)) at 1 2 by assumption.
    rewrite render_loop_join by lia. reflexivity. }
  split; [|split; [|split; reflexivity]].
  - intros Hs. rewrite (Hjoin (n_states self)) by lia. do 3 f_equal.
    replace (n_states self)
      with (current_state self + (1 + (n_states self - current_state self - 1))) at 1 by lia.
    rewrite seqZ_app by lia. rewrite List.map_app. f_equal.
    + rewrite <- (Z2Nat.id (current_state self)) at 2 by lia.
      apply boxes_off. lia.
    + rewrite seqZ_cons by lia. simpl. f_equal.
      * unfold box. now rewrite Z.eqb_refl.
      * replace (Z.pred (1 + (n_states self - current_state self - 1)))
          with (Z.of_nat (Z.to_nat (n_states self - current_state self - 1))) by lia.
        apply boxes_off. lia.
  - intros Hs. destruct (Z.le_gt_cases 0 (n_states self)) as [Hn|Hn].
    + rewrite (Hjoin (n_states self)) by lia. do 3 f_equal.
      rewrite <- (Z2Nat.id (n_states self)) at 1 by lia.
      apply boxes_off. lia.
    + unfold render. simpl. rewrite seqZ_nil by lia.
      replace (Z.to_nat (n_states self)) with 0%nat by lia. reflexivity.
Qed.

(** ** Sums of rows with one cell that is not zero *)

Lemma weight_cons a l : weight (a :: l) = (weight [a] + weight l)%nat.
Proof. unfold weight. simpl. now destruct (is_zero a). Qed.

Lemma weight_app l1 l2 : weight (l1 ++ l2) = (weight l1 + weight l2)%nat.
Proof. unfold weight. now rewrite List.filter_app, length_app. Qed.

Lemma weight_zeros n : weight (replicate n zero) = 0%nat.
Proof. induction n as [|n IH]; [reflexivity|]. simpl. now rewrite weight_cons, IH. Qed.

Section OneCell.

Variables (sx : bool) (mx : positive) (ex : Z).

Local Abbreviation x := (S754_finite sx mx ex).

Lemma cell_carries a : is_zero a = true \/ a = x -> carries x a (weight [a]).
Proof. intros [Ha| ->]; [left|right]; unfold weight; simpl; [rewrite Ha|]; auto. Qed.

Lemma carries_cell v c :
  carries x v c -> (is_zero v = true \/ v = x) /\ weight [v] = c.
Proof.
  intros [[-> Hv]|[-> ->]]; unfold weight; simpl; [rewrite Hv|]; auto.
Qed.

Lemma add_carries a b ca cb :
  carries x a ca -> carries x b cb -> (ca + cb <= 1)%nat ->
  carries x (f32_add a b) (ca + cb).
Proof.
  intros [[-> Ha]|[-> ->]] [[-> Hb]|[-> ->]] Hc; try lia.
  - left. split; [reflexivity|]. now apply f32_add_zeros.
  - right. split; [reflexivity|]. now destruct a.
  - right. split; [reflexivity|]. now destruct b.
Qed.

Lemma foldl_carries l : forall acc c,
  zero_or x l -> carries x acc c -> (c + weight l <= 1)%nat ->
  carries x (foldl f32_add acc l) (c + weight l).
Proof.
  induction l as [|a l IH]; intros acc c Hl Hacc Hc.
  - simpl. now rewrite Nat.add_0_r.
  - apply Forall_cons in Hl as [Ha Hl]. rewrite weight_cons in *. simpl.
    rewrite Nat.add_assoc. apply IH; [assumption| |lia].
    apply add_carries; [assumption|now apply cell_carries|lia].
Qed.

Lemma zip_with_carries r : forall b,
  length r = length b -> zero_or x r -> zero_or x b ->
  (weight r + weight b <= 1)%nat ->
  zero_or x (zip_with f32_add r b) /\
  weight (zip_with f32_add r b) = (weight r + weight b)%nat.
Proof.
  induction r as [|r0 r IH]; intros [|b0 b] Hlen Hr Hb Hw; try discriminate.
  - split; [constructor|reflexivity].
  - apply Forall_cons in Hr as [Hr0 Hr]. apply Forall_cons in Hb as [Hb0 Hb].
    rewrite (weight_cons r0), (weight_cons b0) in *. simpl.
    destruct (IH b ltac:(simpl in Hlen; lia) Hr Hb ltac:(lia)) as [Hz Hwz].
    destruct (carries_cell _ _
                (add_carries _ _ _ _ (cell_carries _ Hr0) (cell_carries _ Hb0) ltac:(lia)))
      as [Hc Hwc].
    split; [now constructor|]. rewrite weight_cons, Hwc, Hwz. lia.
Qed.

Lemma add_blocks_carries (q : nat) : forall l r,
  length l = (8 * q)%nat -> length r = 8%nat ->
  zero_or x r -> zero_or x l -> (weight r + weight l <= 1)%nat ->
  zero_or x (add_blocks r l) /\
  weight (add_blocks r l) = (weight r + weight l)%nat /\
  length (add_blocks r l) = 8%nat.
Proof.
  induction q as [|q IH]; intros l r Hl Hr Hzr Hzl Hw.
  - destruct l; [|discriminate]. simpl. rewrite Nat.add_0_r. auto.
  - destruct l as [|a0 [|a1 [|a2 [|a3 [|a4 [|a5 [|a6 [|a7 rest]]]]]]]];
      try (simpl in Hl; lia).
    change (a0 :: a1 :: a2 :: a3 :: a4 :: a5 :: a6 :: a7 :: rest)
      with ([a0; a1; a2; a3; a4; a5; a6; a7] ++ rest) in Hzl, Hw |- *.
    apply Forall_app in Hzl as [Hzb Hzrest]. rewrite weight_app in *.
    destruct (zip_with_carries r [a0; a1; a2; a3; a4; a5; a6; a7]
                ltac:(simpl; lia) Hzr Hzb ltac:(lia)) as [Hz Hwz].
    destruct (IH rest (zip_with f32_add r [a0; a1; a2; a3; a4; a5; a6; a7]))
      as (H1 & H2 & H3); try assumption.
    + simpl in Hl. lia.
    + rewrite length_zip_with. simpl. lia.
    + lia.
    + simpl app. cbn [add_blocks]. split; [assumption|]. split; [lia|assumption].
Qed.

Lemma combine8_carries r :
  length r = 8%nat -> zero_or x r -> (weight r <= 1)%nat ->
  carries x (combine8 r) (weight r).
Proof.
  intros Hlen Hz Hw.
  destruct r as [|r0 [|r1 [|r2 [|r3 [|r4 [|r5 [|r6 [|r7 [|r8 r]]]]]]]]]; try discriminate.
  repeat (apply Forall_cons in Hz as [?%cell_carries Hz]).
  rewrite !(weight_cons _ (_ :: _)) in *. unfold combine8.
  replace (weight [r0] + (weight [r1] + (weight [r2] + (weight [r3] + (weight [r4] +
            (weight [r5] + (weight [r6] + weight [r7])))))))%nat
    with (((weight [r0] + weight [r1]) + (weight [r2] + weight [r3])) +
          ((weight [r4] + weight [r5]) + (weight [r6] + weight [r7])))%nat by lia.
  repeat (apply add_carries; [| |lia]); assumption.
Qed.

Lemma sum_block_carries l :
  (8 <= length l)%nat -> zero_or x l -> (weight l <= 1)%nat ->
  carries x (sum_block l) (weight l).
Proof.
  intros Hlen Hz Hw. unfold sum_block.
  set (whole := (length l - length l mod 8)%nat).
  pose proof (Nat.div_mod_eq (length l) 8) as Hdiv.
  pose proof (Nat.mod_upper_bound (length l) 8 ltac:(lia)) as Hmod.
  assert (whole = 8 * (length l / 8))%nat as Hwhole by (unfold whole; lia).
  assert (8 <= whole)%nat as H8 by (unfold whole; lia).
  assert (l = take 8 l ++ drop 8 (take whole l) ++ drop whole l) as Hsplit.
  { rewrite <- (take_drop whole l) at 1.
    rewrite <- (take_drop 8 (take whole l)) at 1.
    rewrite take_take, Nat.min_l by lia. now rewrite <- app_assoc. }
  assert (zero_or x (take 8 l) /\ zero_or x (drop 8 (take whole l)) /\
          zero_or x (drop whole l)) as (Hz1 & Hz2 & Hz3).
  { unfold zero_or in *. auto using Forall_take, Forall_drop. }
  assert (weight l = (weight (take 8 l) + weight (drop 8 (take whole l)) +
                      weight (drop whole l))%nat) as Hwl.
  { rewrite Hsplit at 1. rewrite !weight_app. lia. }
  destruct (add_blocks_carries (length l / 8 - 1) (drop 8 (take whole l)) (take 8 l))
    as (Hzb & Hwb & Hlb); try assumption.
  - rewrite length_drop, length_take. lia.
  - rewrite length_take. lia.
  - lia.
  - rewrite Hwl, <- Hwb. apply foldl_carries; [assumption| |lia].
    apply combine8_carries; [assumption|assumption|lia].
Qed.

Lemma pairwise_sum_carries fuel : forall l,
  zero_or x l -> (weight l <= 1)%nat ->
  carries x (pairwise_sum fuel l) (weight l).
Proof.
  assert (forall l, zero_or x l -> (weight l <= 1)%nat ->
            carries x (foldl f32_add neg_zero l) (weight l)) as Hseq.
  { intros l Hz Hw. apply (foldl_carries l neg_zero 0); [assumption| |lia]. now left. }
  induction fuel as [|fuel IH]; intros l Hz Hw.
  - simpl. destruct (Nat.ltb_spec (length l) 8); [now apply Hseq|].
    destruct (Nat.leb (length l) 128); now apply sum_block_carries.
  - rewrite pairwise_sum_S.
    destruct (Nat.ltb_spec (length l) 8); [now apply Hseq|].
    destruct (Nat.leb (length l) 128); [now apply sum_block_carries|].
    set (n2 := (length l / 2 - (length l / 2) mod 8)%nat).
    assert (weight l = (weight (take n2 l) + weight (drop n2 l))%nat) as Hwl.
    { rewrite <- (take_drop n2 l) at 1. apply weight_app. }
    rewrite Hwl. unfold zero_or in *.
    apply add_carries; [apply IH|apply IH|]; auto using Forall_take, Forall_drop; lia.
Qed.

(** A row with one cell [x] and zeros elsewhere sums to [x], however long. *)
Lemma row_sum_one_cell l :
  zero_or x l -> weight l = 1%nat -> row_sum l = x.
Proof.
  intros Hz Hw. unfold row_sum.
  destruct (pairwise_sum_carries (length l) l Hz ltac:(lia)) as [[Hc _]|[_ ->]]; [lia|].
  reflexivity.
Qed.

End OneCell.

Lemma zeros_row x row :
  (forall j, (j < length row)%nat -> row !! j = Some zero) ->
  zero_or x row /\ weight row = 0%nat.
Proof.
  induction row as [|a row IH]; intros H; [split; [constructor|reflexivity]|].
  pose proof (H 0%nat ltac:(simpl; lia)) as H0. simpl in H0. injection H0 as ->.
  destruct IH as [Hz Hw].
  { intros j Hj. apply (H (S j)). simpl. lia. }
  split; [constructor; [now left|assumption]|]. now rewrite weight_cons, Hw.
Qed.

Lemma one_cell_row sx mx ex row : forall k : nat,
  (k < length row)%nat ->
  (forall j, (j < length row)%nat ->
     row !! j = Some (if Nat.eqb j k then S754_finite sx mx ex else zero)) ->
  zero_or (S754_finite sx mx ex) row /\ weight row = 1%nat.
Proof.
  induction row as [|a row IH]; intros k Hk H; [simpl in Hk; lia|].
  pose proof (H 0%nat ltac:(simpl; lia)) as H0. simpl in H0. injection H0 as ->.
  destruct k as [|k]; simpl.
  - destruct (zeros_row (S754_finite sx mx ex) row) as [Hz Hw].
    { intros j Hj. apply (H (S j)). simpl. lia. }
    split; [constructor; [now right|assumption]|]. now rewrite weight_cons, Hw.
  - destruct (IH k) as [Hz Hw]; [simpl in Hk; lia| |].
    { intros j Hj. apply (H (S j)). simpl. lia. }
    split; [constructor; [now left|assumption]|]. now rewrite weight_cons, Hw.
Qed.

Lemma sum_axis_Forall (P : spec_float -> Prop) a : forall T sums,
  0 <= a ->
  sum_axis T a = ok sums ->
  (forall s plane row, T !! s = Some plane -> plane !! Z.to_nat a = Some row ->
                       P (row_sum row)) ->
  Forall P sums.
Proof.
  induction T as [|plane T IH]; intros sums Ha H HP.
  - injection H as <-. constructor.
  - rewrite sum_axis_cons in H. inv_bind H. inv_bind H. inv_bind H. injection H as <-.
    apply lookup_or_raise_ok in E0.
    assert (x = Z.to_nat a) as ->.
    { unfold norm_index in E.
      destruct ((0 <=? a) && (a <? Z.of_nat (length plane))); [now injection E|].
      destruct (Z.ltb_spec a 0); [lia|].
      rewrite andb_false_r in E. discriminate. }
    constructor.
    + apply (HP 0%nat plane x0); [reflexivity|assumption].
    + apply (IH x1 Ha E1). intros s p r Hs Hr. apply (HP (S s) p r); assumption.
Qed.

(** X12.  The rows of action 0 always pass.  For at least two states each
    row of action 0 holds a single one among zeros, and its binary32 sum is
    exactly one however long the row is: the first assertion of
    [_get_transition] never fails, and the builder returns the table or
    raises [AssertionError] according to the rows of action 1 alone. *)
Theorem first_assertion_always_passes {Reward} (self : RiverSwimEnv Reward) :
  2 <= n_states self -> n_actions self = 2 ->
  exists T s0 s1,
    transition_table self = ok T /\
    sum_axis T 0 = ok s0 /\
    Forall (fun v => v = one32) s0 /\ all_eq_one s0 = true /\
    sum_axis T 1 = ok s1 /\
    _get_transition self = if all_eq_one s1 then ok T else raise AssertionError.
Proof.
  intros Hn Ha.
  destruct (transition_table_spec self Hn Ha) as (T & HT & HS & HG).
  destruct (sum_axis_shape _ _ 0 T HS (or_introl eq_refl)) as [s0 Hs0].
  destruct (sum_axis_shape _ _ 1 T HS (or_intror eq_refl)) as [s1 Hs1].
  assert (Forall (fun v => v = one32) s0) as Hall.
  { apply (sum_axis_Forall _ 0 T s0 ltac:(lia) Hs0).
    intros s plane row Hs Hrow.
    pose proof (lookup_lt_Some _ _ _ Hs) as Hlt.
    pose proof (shape_row _ _ _ _ _ _ _ _ HS Hs Hrow) as Hlen.
    destruct HS as [HTlen _].
    destruct (one_cell_row false 8388608 (-23) row (Z.to_nat (Z.max 0 (Z.of_nat s - 1))))
      as [Hz Hw]; [lia| |].
    { intros j Hj.
      pose proof (HG (Z.of_nat s) 0 (Z.of_nat j) ltac:(lia) ltac:(lia) ltac:(lia)) as Hentry.
      unfold entry in Hentry. rewrite !Nat2Z.id in Hentry. rewrite Hs in Hentry.
      simpl in Hentry. rewrite Hrow in Hentry. simpl in Hentry. rewrite Hentry.
      unfold kernel_spec. simpl. f_equal.
      destruct (Nat.eqb_spec j (Z.to_nat (Z.max 0 (Z.of_nat s - 1))));
        split_tests; reflexivity. }
    now apply (row_sum_one_cell false 8388608 (-23)). }
  assert (all_eq_one s0 = true) as Hone.
  { clear Hs0. induction Hall as [|v s0 -> _ IH]; [reflexivity|]. simpl. exact IH. }
  exists T, s0, s1. repeat (split; [assumption|]).
  unfold _get_transition. rewrite HT. simpl. rewrite Hs0. simpl. rewrite Hone. simpl.
  rewrite Hs1. simpl. now destruct (all_eq_one s1).
Qed.

Lemma first_assertion_always_passes_witness :
  2 <= n_states default_env /\ n_actions default_env = 2 /\
  exists T s0 s1,
    transition_table default_env = ok T /\
    sum_axis T 0 = ok s0 /\
    Forall (fun v => v = one32) s0 /\ all_eq_one s0 = true /\
    sum_axis T 1 = ok s1 /\
    _get_transition default_env = if all_eq_one s1 then ok T else raise AssertionError.
Proof.
  assert (2 <= n_states default_env) as Hn by (vm_compute; discriminate).
  split; [exact Hn|]. split; [reflexivity|].
  exact (first_assertion_always_passes default_env Hn eq_refl).
Defined.

(** X13.  The swimmer does not jump.  After any sequence of calls of [step],
    rejected ones included, the current state is still inside the river and
    at most as many states away from where it was as calls were made. *)
Theorem swimmer_does_not_jump {Reward}
    (choice : Generator -> Z -> list spec_float -> option (Z * Generator))
    (actions : list Z) (self : RiverSwimEnv Reward) :
  sampler_in_support choice ->
  constructed self -> 2 <= n_states self ->
  0 <= current_state self < n_states self ->
  0 <= current_state (fst (run choice self actions)) < n_states self /\
  Z.abs (current_state (fst (run choice self actions)) - current_state self)
    <= Z.of_nat (length actions).
Proof.
  intros Hsup. revert self.
  induction actions as [|a rest IH]; intros self Hc Hn Hs; [simpl; lia|].
  simpl. destruct (step choice self a) as [self1 r] eqn:Hstep.
  destruct (step_keeps _ _ _ _ _ Hstep) as (Hn1 & _ & _ & _ & _ & Hcon).
  assert (0 <= current_state self1 < n_states self1 /\
          Z.abs (current_state self1 - current_state self) <= 1) as [Hs1 Hd].
  { destruct r as [e|x].
    - apply step_error_unchanged in Hstep as ->. lia.
    - destruct (step_local choice Hsup _ _ _ _ Hc Hn Hs Hstep) as [Hx Hloc].
      destruct (step_ok_inv _ _ _ _ _ Hstep) as (_ & _ & _ & _ & _ & Hcs & _). lia. }
  specialize (IH self1 (Hcon Hc) ltac:(lia) Hs1).
  destruct (run choice self1 rest) as [self2 rs]. simpl in *. lia.
Qed.

Lemma swimmer_does_not_jump_witness :
  sampler_in_support choice_first /\ constructed default_env /\
  2 <= n_states default_env /\
  0 <= current_state default_env < n_states default_env /\
  Z.abs (current_state (fst (run choice_first default_env [1; 7; 0])) -
         current_state default_env) <= 3.
Proof.
  assert (2 <= n_states default_env) as Hn by (vm_compute; discriminate).
  assert (0 <= current_state default_env < n_states default_env) as Hs
    by (vm_compute; split; [discriminate|reflexivity]).
  split; [exact choice_first_in_support|]. split; [exact default_env_constructed|].
  split; [exact Hn|]. split; [exact Hs|].
  exact (proj2 (swimmer_does_not_jump choice_first [1; 7; 0] default_env
                  choice_first_in_support default_env_constructed Hn Hs)).
Defined.

Lemma choice_first_refuses : sampler_refuses choice_first.
Proof.
  intros g n p H. unfold choice_first, is_distribution. rewrite H.
  now rewrite andb_false_r.
Qed.

Lemma negative_env_init : __init__ choice_last negative_config 0 = ok negative_env.
Proof. vm_compute. reflexivity. Qed.

(** X14.  A row with a negative cell stops the swimmer.  When the row of the
    current state under a valid action holds a cell that is negative or not
    a number, the sampler refuses it: [step] raises [ValueError] and leaves
    the environment as it was, generator included.  The assertions of the
    builder let such a table through when its rows sum to one: -0.25 to the
    left and 0.5 to the right give the row -0.25, 0.75, 0.5. *)
Theorem negative_row_is_refused {Reward}
    (choice : Generator -> Z -> list spec_float -> option (Z * Generator))
    (self : RiverSwimEnv Reward) (a : Z) (row : list spec_float) :
  sampler_refuses choice ->
  a = 0 \/ a = 1 ->
  getrow (transition self) (current_state self) a = ok row ->
  forallb is_probability row = false ->
  step choice self a = (self, raise ValueError).
Proof.
  intros Href Ha Hrow Hneg.
  apply (step_refused choice self a row Ha Hrow). now apply Href.
Qed.

Lemma negative_row_is_refused_witness :
  __init__ choice_last negative_config 0 = ok negative_env /\
  sampler_refuses choice_first /\ (1 = 0 \/ 1 = 1) /\
  getrow (transition negative_env) (current_state negative_env) 1 = ok negative_row /\
  forallb is_probability negative_row = false /\
  f32_eqb (row_sum negative_row) one32 = true /\
  step choice_first negative_env 1 = (negative_env, raise ValueError).
Proof.
  assert (getrow (transition negative_env) (current_state negative_env) 1 = ok negative_row)
    as Hrow by (vm_compute; reflexivity).
  assert (forallb is_probability negative_row = false) as Hneg by (vm_compute; reflexivity).
  split; [exact negative_env_init|]. split; [exact choice_first_refuses|].
  split; [right; reflexivity|]. split; [exact Hrow|]. split; [exact Hneg|].
  split; [vm_compute; reflexivity|].
  exact (negative_row_is_refused choice_first negative_env 1 negative_row
           choice_first_refuses (or_intror eq_refl) Hrow Hneg).
Defined.

(** X15.  The constructor needs a state.  For a number of states that is not
    positive the assertion of [Discrete(n_states)] fails: the constructor
    raises [AssertionError], after the first draw and before the table is
    built. *)
Theorem constructor_needs_a_state {Reward}
    (choice_list : Generator -> list Z -> Z * Generator)
    (cfg : Config Reward) (os_entropy : Z) :
  cfg_n_states cfg <= 0 ->
  __init__ choice_list cfg os_entropy = raise AssertionError.
Proof.
  intros Hn. rewrite init_unfold. destruct (choice_list _ _) as [s g].
  unfold assert. destruct (Z.ltb_spec 0 (cfg_n_states cfg)); [lia|reflexivity].
Qed.

Lemma constructor_needs_a_state_witness :
  cfg_n_states empty_config <= 0 /\
  __init__ choice_head empty_config 0 = raise AssertionError.
Proof.
  assert (cfg_n_states empty_config <= 0) as Hn by (vm_compute; discriminate).
  split; [exact Hn|].
  exact (constructor_needs_a_state choice_head empty_config 0 Hn).
Defined.
